(** * CC98-Watchdog: a shallow embedding of the polling loop and its client

    The development follows the three Python modules of the repository:
    [cc98.py] (the [CC98Client] class), [dingtalk.py] (the webhook
    collaborator) and [main.py] (the notification rule and the polling
    loop).  Network calls are modelled by oracles indexed by the number of
    requests issued so far; every call and every observable step of the loop
    is appended to a chronological trace. *)

From Stdlib Require Import ZArith String Ascii List Lia DecimalString.
From Stdlib Require Import Sorted Permutation.
From stdpp Require Import gmap strings list.

Open Scope string_scope.
Open Scope Z_scope.

(** ** Python primitives used by the sources *)

Module Py.

(** Truthiness of a value that is either [None] or a [str]. *)
Definition truthy (o : option string) : bool :=
  match o with
  | Some s => negb (String.eqb s "")
  | None => false
  end.

(** [str(n)] for an [int]. *)
Definition str_int (z : Z) : string := NilZero.string_of_int (Z.to_int z).

(** The text an f-string inserts for a value that is [None] or an [int]. *)
Definition fmt_int (o : option Z) : string :=
  match o with
  | Some z => str_int z
  | None => "None"
  end.

(** The text an f-string inserts for a value that is [None] or a [str]. *)
Definition fmt_str (o : option string) : string :=
  match o with
  | Some s => s
  | None => "None"
  end.

(** [needle in hay] on strings: substring containment.  Strings are kept
    as their UTF-8 bytes; as UTF-8 is self-synchronising, containment of
    encodings coincides with containment of code-point sequences. *)
Fixpoint str_in (needle hay : string) : bool :=
  if String.prefix needle hay then true
  else match hay with
       | EmptyString => false
       | String _ rest => str_in needle rest
       end.

(** [any(f(x) for x in l)]. *)
Definition any {A} (f : A -> bool) (l : list A) : bool := existsb f l.

(** [d.get(k)] on a dict whose values may themselves be [None]. *)
Definition dict_get {K} `{Countable K} {V} (d : gmap K (option V)) (k : K)
  : option V :=
  match d !! k with
  | Some v => v
  | None => None
  end.

End Py.

(** ** JSON payloads of the REST API

    Every field is read with [dict.get], so an absent key is [None]. *)

Record Topic := {
  id : option Z;
  boardId : option Z;
  title : option string;
  userName : option string;
  time : option string
}.

Record Post := { content : option string }.

Record Board := { board_id : option Z; board_name : option string }.

Record RootBoard := {
  root_id : option Z;
  root_name : option string;
  boards : list Board
}.

Record TokenData := {
  token_access : option string;
  token_refresh : option string
}.

Record WebhookReply := { errcode : option Z; errmsg : option string }.

(** [t.get("id", 0)] *)
Definition topic_id (t : Topic) : Z := default 0 (id t).

(** ** The outside world *)

(** What [requests] gives back: the call raises, or a response arrives whose
    [json()] either decodes to the documented shape or raises ([None]).  A
    body of another shape raises at its first use, before anything is
    assigned, and is covered by the second case. *)
Inductive HttpResult (J : Type) :=
| ConnectionError
| Response (status_code : Z) (json : option J).
Arguments ConnectionError {J}.
Arguments Response {J} status_code json.

Record Env := {
  DINGTALK_SEND_URL : option string;
  DINGTALK_SIGNATURE : option string;
  connect_token : nat -> HttpResult TokenData;
  topic_new : nat -> HttpResult (list Topic);
  board_all : nat -> HttpResult (list RootBoard);
  topic_post : Z -> nat -> HttpResult (list Post);
  webhook : string -> nat -> HttpResult WebhookReply
}.

Inductive Event :=
| EvSleep (seconds : Z)
| EvLogin
| EvPostToken
| EvGetNewTopics
| EvGetAllBoards
| EvGetPosts (topic : Z)
| EvDispatch (topic : Z) (msg : string)
| EvDebug (topic : Z) (msg : string)
| EvIgnored (topic : Z)
| EvPostWebhook (msg : string).

(** ** Client state ([CC98Client] attributes) and the request counter *)

Record Client := {
  client_id : option string;
  client_secret : option string;
  access_token : option string;
  refresh_token : option string;
  authorization : option string;
  board_map : gmap (option Z) (option string)
}.

Record State := {
  client : Client;
  clock : nat;
  trace : list Event
}.

Definition set_client (c : Client) (s : State) : State :=
  {| client := c; clock := clock s; trace := trace s |}.

Definition set_tokens (a r : option string) (c : Client) : Client :=
  {| client_id := client_id c; client_secret := client_secret c;
     access_token := a; refresh_token := r;
     authorization := authorization c; board_map := board_map c |}.

Definition set_authorization (h : string) (c : Client) : Client :=
  {| client_id := client_id c; client_secret := client_secret c;
     access_token := access_token c; refresh_token := refresh_token c;
     authorization := Some h; board_map := board_map c |}.

Definition set_board_map (m : gmap (option Z) (option string)) (c : Client)
  : Client :=
  {| client_id := client_id c; client_secret := client_secret c;
     access_token := access_token c; refresh_token := refresh_token c;
     authorization := authorization c; board_map := m |}.

(** ** A state monad with exceptions *)

Inductive Exn :=
| RequestException
| JSONDecodeError
| KeyError
| ValueError.

Inductive Result (A : Type) :=
| Ok (a : A)
| Raise (e : Exn).
Arguments Ok {A} a.
Arguments Raise {A} e.

Definition M (A : Type) : Type := State -> Result A * State.

Definition ret {A} (a : A) : M A := fun s => (Ok a, s).

Definition raise {A} (e : Exn) : M A := fun s => (Raise e, s).

Definition bind {A B} (c : M A) (k : A -> M B) : M B :=
  fun s =>
    match c s with
    | (Ok a, s') => k a s'
    | (Raise e, s') => (Raise e, s')
    end.

(** [try: c except Exception as e: h e] *)
Definition try_except {A} (c : M A) (h : Exn -> M A) : M A :=
  fun s =>
    match c s with
    | (Ok a, s') => (Ok a, s')
    | (Raise e, s') => h e s'
    end.

Notation "'do' x <- c ; k" := (bind c (fun x => k))
  (at level 10, x name, c at level 100, k at level 200).
Notation "'run' c ; k" := (bind c (fun _ => k))
  (at level 10, c at level 100, k at level 200).

(** The state after an observable step that is not a network request, and
    after a network request. *)
Definition record (ev : Event) (s : State) : State :=
  {| client := client s; clock := clock s; trace := trace s ++ [ev] |}.

Definition advance (ev : Event) (s : State) : State :=
  {| client := client s; clock := S (clock s); trace := trace s ++ [ev] |}.

Definition log (ev : Event) : M unit := fun s => (Ok tt, record ev s).

Definition get_client : M Client := fun s => (Ok (client s), s).

Definition modify_client (f : Client -> Client) : M unit :=
  fun s => (Ok tt, set_client (f (client s)) s).

(** One HTTP request: the oracle is read at the current request count, the
    count advances and the request is traced, whether or not it raises. *)
Definition request {J} (ev : Event) (oracle : nat -> HttpResult J)
  : M (Z * option J) :=
  fun s =>
    match oracle (clock s) with
    | ConnectionError => (Raise RequestException, advance ev s)
    | Response st j => (Ok (st, j), advance ev s)
    end.

(** [response.json()] *)
Definition json_of {J} (j : option J) : M J :=
  match j with
  | Some v => ret v
  | None => raise JSONDecodeError
  end.

(** ** cc98.py *)

Section CC98Client.

Variable env : Env.

(** [get_new_topics] *)
Definition get_new_topics : M (list Topic) :=
  do response <- request EvGetNewTopics (topic_new env);
  if Z.eqb (fst response) 200 then json_of (snd response) else ret [].

(** [get_posts] *)
Definition get_posts (topic : Z) : M (list Post) :=
  do response <- request (EvGetPosts topic) (topic_post env topic);
  if Z.eqb (fst response) 200 then json_of (snd response) else ret [].

(** [get_all_boards] *)
Definition get_all_boards : M (list RootBoard) :=
  do response <- request EvGetAllBoards (board_all env);
  if Z.eqb (fst response) 200 then json_of (snd response) else ret [].

(** [login].  A 200 response whose body is not a JSON object makes
    [token_data.get] raise before any attribute is assigned; it is covered
    by the undecodable case of [json_of]. *)
Definition login : M bool :=
  run log EvLogin;
  do c <- get_client;
  if negb (Py.truthy (client_id c)) || negb (Py.truthy (client_secret c))
  then ret false
  else
    try_except
      (do response <- request EvPostToken (connect_token env);
       if Z.eqb (fst response) 200 then
         do token_data <- json_of (snd response);
         run modify_client (set_tokens (token_access token_data)
                                       (token_refresh token_data));
         run modify_client
               (set_authorization
                  ("Bearer " ++ Py.fmt_str (token_access token_data)));
         ret true
       else ret false)
      (fun _ => ret false).

(** The two nested [for] loops of [_refresh_board_map]. *)
Definition add_sub_boards (bs : list Board)
    (m : gmap (option Z) (option string)) : gmap (option Z) (option string) :=
  fold_left (fun acc b => <[board_id b := board_name b]> acc) bs m.

Definition add_root_boards (roots : list RootBoard)
    (m : gmap (option Z) (option string)) : gmap (option Z) (option string) :=
  fold_left
    (fun acc root =>
       add_sub_boards (boards root) (<[root_id root := root_name root]> acc))
    roots m.

(** [_refresh_board_map] *)
Definition _refresh_board_map : M unit :=
  try_except
    (do root_boards <- get_all_boards;
     modify_client
       (fun c => set_board_map (add_root_boards root_boards (board_map c)) c))
    (fun _ => ret tt).

Definition unknown_board (b : option Z) : string :=
  "Unknown Board (" ++ Py.fmt_int b ++ ")".

(** [get_board_name] *)
Definition get_board_name (b : option Z) : M string :=
  do c <- get_client;
  run (if bool_decide (board_map c = ∅) then _refresh_board_map else ret tt);
  do c <- get_client;
  let name := Py.dict_get (board_map c) b in
  do name <- (if negb (Py.truthy name)
              then run _refresh_board_map;
                   do c <- get_client;
                   ret (Py.dict_get (board_map c) b)
              else ret name);
  ret (if Py.truthy name then Py.fmt_str name else unknown_board b).

End CC98Client.

(** ** dingtalk.py *)

Section Dingtalk.

Variable env : Env.

(** [send_dingtalk_message].  The timestamp and the HMAC signature only
    shape the URL of the request; the reply is read from the oracle. *)
Definition send_dingtalk_message (message : string) : M unit :=
  if negb (Py.truthy (DINGTALK_SEND_URL env))
     || negb (Py.truthy (DINGTALK_SIGNATURE env))
  then ret tt
  else
    do res <- request (EvPostWebhook message) (webhook env message);
    if negb (Z.eqb (fst res) 200) then ret tt
    else
      do reply <- json_of (snd res);
      match errcode reply with
      | None => raise KeyError
      | Some code =>
          if negb (Z.eqb code 0)
          then match errmsg reply with
               | None => raise KeyError
               | Some _ => ret tt
               end
          else ret tt
      end.

End Dingtalk.

(** ** main.py *)

Definition INTERVAL : Z := 2 * 60.
Definition DEBUG : bool := false.
Definition KEYWORDS : list string :=
  [ "前端"; "网页"; "网站"; "后端"; "服务器"; "开发"; "程序";
    "fullstack"; "frontend"; "backend"; "web"; "js"; "javascript";
    "typescript"; "react"; "vue"; "angular"; "node"; "html" ].

(** What [main] has done when the model stops following it: it returned, or
    it is still inside [while True] holding [max_id]. *)
Inductive Outcome :=
| Returned
| Polling (max_id : Z).

(** [max(...)] over a generator of integers. *)
Definition py_max (l : list Z) : M Z :=
  match l with
  | [] => raise ValueError
  | x :: xs => ret (fold_left Z.max xs x)
  end.

(** [list.sort(key=lambda x: x.get("id", 0))]: a stable ascending sort. *)
Fixpoint insert_by_id (t : Topic) (l : list Topic) : list Topic :=
  match l with
  | [] => [t]
  | u :: l' =>
      if topic_id t <=? topic_id u then t :: u :: l'
      else u :: insert_by_id t l'
  end.

Fixpoint sort_by_id (l : list Topic) : list Topic :=
  match l with
  | [] => []
  | t :: l' => insert_by_id t (sort_by_id l')
  end.

(** [[t for t in topics if t.get("id", 0) > max_id]] *)
Definition newer_than (max_id : Z) (topics : list Topic) : list Topic :=
  List.filter (fun t => max_id <? topic_id t) topics.

Section Main.

(** [str.lower] of the Python runtime, acting on the encoded title. *)
Variable lower : string -> string.

(** [format_message] builds the text of the alert from the topic, the board
    name and the content; it has no effect and the loop never inspects its
    result. *)
Variable format_message : Topic -> string -> string -> string.

Variable env : Env.

(** [check_topic_condition] *)
Definition check_topic_condition (topic : Topic) : bool :=
  let board := boardId topic in
  let title := lower (default "" (title topic)) in
  if bool_decide (board = Some 459) then
    if Py.any (fun keyword => Py.str_in keyword title) KEYWORDS then true
    else false
  else false.

(** The inner [try] of the loop body: the first post of the topic. *)
Definition fetch_content (t_id : Z) : M string :=
  try_except
    (do posts <- get_posts env t_id;
     match posts with
     | p :: _ => ret (default "No content." (content p))
     | [] => ret "No content available."
     end)
    (fun _ => ret "No content available.").

(** One iteration of [for topic in new_topics]. *)
Definition process_topic (topic : Topic) (new_max_id : Z) : M Z :=
  let t_id := topic_id topic in
  run (if check_topic_condition topic then
         do name <- get_board_name env (boardId topic);
         do text <- fetch_content t_id;
         let msg := format_message topic name text in
         if DEBUG then log (EvDebug t_id msg)
         else run log (EvDispatch t_id msg); send_dingtalk_message env msg
       else
         do name <- get_board_name env (boardId topic);
         log (EvIgnored t_id));
  ret (if new_max_id <? t_id then t_id else new_max_id).

Fixpoint for_topics (new_topics : list Topic) (new_max_id : Z) : M Z :=
  match new_topics with
  | [] => ret new_max_id
  | topic :: rest =>
      do m <- process_topic topic new_max_id;
      for_topics rest m
  end.

(** The fetch of a cycle with its recovery rule (lines 103-109). *)
Definition fetch_with_recovery : M (list Topic) :=
  do topics <- get_new_topics env;
  match topics with
  | [] =>
      do ok <- login env;
      if ok then get_new_topics env else ret topics
  | _ :: _ => ret topics
  end.

(** The [try] block of one cycle. *)
Definition cycle_body (max_id : Z) : M Z :=
  do topics <- fetch_with_recovery;
  match topics with
  | _ :: _ =>
      let new_topics := sort_by_id (newer_than max_id topics) in
      for_topics new_topics max_id
  | [] => ret max_id
  end.

(** One turn of [while True]: sleep, then the guarded cycle. *)
Definition cycle (max_id : Z) : M Z :=
  run log (EvSleep INTERVAL);
  try_except (cycle_body max_id) (fun _ => ret max_id).

Fixpoint poll_loop (fuel : nat) (max_id : Z) : M Outcome :=
  match fuel with
  | O => ret (Polling max_id)
  | S n => do m <- cycle max_id; poll_loop n m
  end.

(** The baseline fetch (the first [try] of [main]). *)
Definition baseline : M Z :=
  do topics <- get_new_topics env;
  match topics with
  | _ :: _ => py_max (map topic_id topics)
  | [] => ret 0
  end.

(** [main], from the state the constructed client starts in ([client_id] and
    [client_secret] hold what [_update_credentials_from_web] found, if
    anything), followed for [fuel] turns of its loop. *)
Definition main (fuel : nat) : M Outcome :=
  do ok <- login env;
  if negb ok then ret Returned
  else
    do started <- try_except (do m <- baseline; ret (Some m))
                             (fun _ => ret None);
    match started with
    | None => ret Returned
    | Some max_id => poll_loop fuel max_id
    end.

End Main.

(** ** Reading the trace *)

(** The events a run added to the trace. *)
Definition new_events (s s' : State) : list Event :=
  drop (length (trace s)) (trace s').

Definition is_login (e : Event) : bool :=
  match e with EvLogin => true | _ => false end.

Definition is_fetch (e : Event) : bool :=
  match e with EvGetNewTopics => true | _ => false end.

Definition is_request (e : Event) : bool :=
  match e with
  | EvPostToken | EvGetNewTopics | EvGetAllBoards | EvGetPosts _
  | EvPostWebhook _ => true
  | _ => false
  end.

Definition is_sleep (e : Event) : bool :=
  match e with EvSleep _ => true | _ => false end.

Definition is_board_fetch (e : Event) : bool :=
  match e with EvGetAllBoards => true | _ => false end.

Definition count (p : Event -> bool) (d : list Event) : nat :=
  length (List.filter p d).

(** The topic an event evaluates: a matched topic has its first post
    fetched, an unmatched one is logged as ignored. *)
Definition ev_evaluated (e : Event) : list Z :=
  match e with
  | EvGetPosts t | EvIgnored t => [t]
  | _ => []
  end.

Definition ev_dispatched (e : Event) : list Z :=
  match e with
  | EvDispatch t _ => [t]
  | _ => []
  end.

Definition evaluated (d : list Event) : list Z := flat_map ev_evaluated d.
Definition dispatched (d : list Event) : list Z := flat_map ev_dispatched d.

(** The ASCII part of [str.lower], for concrete runs. *)
Definition ascii_lower_char (c : ascii) : ascii :=
  let n := nat_of_ascii c in
  if ((65 <=? n)%nat && (n <=? 90)%nat)%bool then ascii_of_nat (n + 32) else c.

Fixpoint ascii_lower (s : string) : string :=
  match s with
  | EmptyString => EmptyString
  | String c rest => String (ascii_lower_char c) (ascii_lower rest)
  end.

(** What a list-valued getter ([get_new_topics], [get_posts],
    [get_all_boards]) makes of the answer to its request. *)
Definition getter_result {J} (r : HttpResult (list J)) : Result (list J) :=
  match r with
  | ConnectionError => Raise RequestException
  | Response st j =>
      if Z.eqb st 200 then
        match j with
        | Some v => Ok v
        | None => Raise JSONDecodeError
        end
      else Ok []
  end.

(** The environment that answers the newest-topics request number [k] with
    [r] and is [env] otherwise. *)
Definition with_topic_new (env : Env) (k : nat)
    (r : HttpResult (list Topic)) : Env :=
  {| DINGTALK_SEND_URL := DINGTALK_SEND_URL env;
     DINGTALK_SIGNATURE := DINGTALK_SIGNATURE env;
     connect_token := connect_token env;
     topic_new := fun n => if Nat.eqb n k then r else topic_new env n;
     board_all := board_all env;
     topic_post := topic_post env;
     webhook := webhook env |}.

(** A computation all of whose new events satisfy [phi]. *)
Definition quiet {A} (phi : Event -> Prop) (c : M A) : Prop :=
  forall s, exists d,
    trace (snd (c s)) = (trace s ++ d)%list /\ Forall phi d.

(** The name the board mapping holds for [b]: [self.board_map.get(b)]. *)
Definition stored_name (s : State) (b : option Z) : option string :=
  Py.dict_get (board_map (client s)) b.

(** The number of board-hierarchy requests a run issued. *)
Definition board_fetches (s s' : State) : nat :=
  count is_board_fetch (new_events s s').

(** Events that neither evaluate nor dispatch a topic. *)
Definition no_topic (e : Event) : Prop :=
  ev_evaluated e = [] /\ ev_dispatched e = [].


(** A request that did not deliver a decodable 200 response. *)
Definition request_failed {J} (r : HttpResult J) : Prop :=
  match r with
  | ConnectionError => True
  | Response st j => st <> 200 \/ j = None
  end.

(** Orders on topics by id. *)
Definition id_le (a b : Topic) : Prop := topic_id a <= topic_id b.

(** ** Concrete environments for running the model *)

Definition sample_client (cid : option string) : Client :=
  {| client_id := cid; client_secret := Some "secret";
     access_token := Some "old-access"; refresh_token := Some "old-refresh";
     authorization := Some "Bearer old-access"; board_map := ∅ |}.

Definition sample_tokens : TokenData :=
  {| token_access := Some "A"; token_refresh := Some "R" |}.

(** An environment whose token endpoint answers [token] and whose
    newest-topics endpoint answers [topics]; everything else succeeds with
    empty data. *)
Definition sample_env (token : nat -> HttpResult TokenData)
    (topics : nat -> HttpResult (list Topic)) : Env :=
  {| DINGTALK_SEND_URL := Some "https://oapi.example/robot/send?access_token=t";
     DINGTALK_SIGNATURE := Some "SEC";
     connect_token := token;
     topic_new := topics;
     board_all := fun _ => Response 200 (Some []);
     topic_post := fun _ _ => Response 200 (Some []);
     webhook := fun _ _ =>
       Response 200 (Some {| errcode := Some 0; errmsg := None |}) |}.

(** A client that already holds a board mapping. *)
Definition client_with_boards (m : gmap (option Z) (option string)) : Client :=
  {| client_id := Some "id"; client_secret := Some "secret";
     access_token := Some "old-access"; refresh_token := Some "old-refresh";
     authorization := Some "Bearer old-access"; board_map := m |}.

Definition start (c : Client) : State :=
  {| client := c; clock := 0; trace := [] |}.

(** An environment in which every request fails to connect. *)
Definition offline_env : Env :=
  {| DINGTALK_SEND_URL := None;
     DINGTALK_SIGNATURE := None;
     connect_token := fun _ => ConnectionError;
     topic_new := fun _ => ConnectionError;
     board_all := fun _ => ConnectionError;
     topic_post := fun _ _ => ConnectionError;
     webhook := fun _ _ => ConnectionError |}.

Definition mk_topic (i board : Z) (text : string) : Topic :=
  {| id := Some i; boardId := Some board; title := Some text;
     userName := Some "someone"; time := Some "2025-01-01T08:00:00.000" |}.

(** A rendering of the alert for concrete runs. *)
Definition sample_format (t : Topic) (board text : string) : string :=
  "[" ++ board ++ "] " ++ default "No Title" (title t) ++ ": " ++ text.

(** The startup batch of the scenario, ids 101 to 103. *)
Definition startup_batch : list Topic :=
  [ mk_topic 101 459 "old frontend job"; mk_topic 102 68 "old chat";
    mk_topic 103 459 "old tutoring" ].

(** The next batch, ids 102 to 105 in the order of the scenario, and the same
    batch as the API may return it, newest first. *)
Definition next_batch : list Topic :=
  [ mk_topic 102 68 "old chat"; mk_topic 103 459 "old tutoring";
    mk_topic 104 459 "React developer wanted"; mk_topic 105 68 "lost keys" ].


(** Login succeeds; the first newest-topics request (request number 1, after
    the token request) returns the startup batch and later ones [batch]. *)
Definition scenario_env (batch : list Topic) : Env :=
  sample_env (fun _ => Response 200 (Some sample_tokens))
             (fun n => if Nat.eqb n 1 then Response 200 (Some startup_batch)
                       else Response 200 (Some batch)).

(** The state of the scenario once the baseline 103 is set: two requests
    were made. *)
Definition after_startup : State :=
  {| client := sample_client (Some "id"); clock := 2; trace := [] |}.


(** ** cc98.py: construction and credential discovery *)

Definition WWW_BASE_URL : string := "https://www.cc98.org".

(** What [session.get] gives back for a page: the call raises, or a response
    arrives with its status and its text. *)
Inductive PageResult :=
| PageError
| Page (status_code : Z) (text : string).

(** The attributes [__init__] assigns before it looks for credentials. *)
Definition blank_client : Client :=
  {| client_id := None; client_secret := None;
     access_token := None; refresh_token := None;
     authorization := None; board_map := ∅ |}.

Definition set_credentials (i secret : string) (c : Client) : Client :=
  {| client_id := Some i; client_secret := Some secret;
     access_token := access_token c; refresh_token := refresh_token c;
     authorization := authorization c; board_map := board_map c |}.

Section Discovery.

(** [self.session.get(url)], by URL and by the number of requests the session
    has made so far. *)
Variable web_get : string -> nat -> PageResult.

(** Group 1 of [re.search] for the three patterns of the source, [None] when
    there is no match: the bundle file name [main-<hex>.js], and the quoted
    values following [client_id] and [client_secret]. *)
Variable search_main_js : string -> option string.
Variable search_client_id : string -> option string.
Variable search_client_secret : string -> option string.

(** [_update_credentials_from_web]: the client it leaves and the URLs it
    requested, in order.  Every early [return] and the [except] branch only
    log. *)
Definition _update_credentials_from_web (c : Client) : Client * list string :=
  match web_get WWW_BASE_URL 0 with
  | PageError => (c, [WWW_BASE_URL])
  | Page status text =>
      if negb (Z.eqb status 200) then (c, [WWW_BASE_URL])
      else
        match search_main_js text with
        | None => (c, [WWW_BASE_URL])
        | Some js_filename =>
            let js_url :=
              (WWW_BASE_URL ++ "/static/scripts/" ++ js_filename)%string in
            match web_get js_url 1 with
            | PageError => (c, [WWW_BASE_URL; js_url])
            | Page js_status content =>
                if negb (Z.eqb js_status 200) then (c, [WWW_BASE_URL; js_url])
                else
                  match search_client_id content,
                        search_client_secret content with
                  | Some i, Some secret =>
                      (set_credentials i secret c, [WWW_BASE_URL; js_url])
                  | _, _ => (c, [WWW_BASE_URL; js_url])
                  end
            end
        end
  end.

(** The five things that must all go well for credentials to be found. *)
Definition discovered (i secret : string) : Prop :=
  exists text js content,
    web_get WWW_BASE_URL 0 = Page 200 text /\
    search_main_js text = Some js /\
    web_get (WWW_BASE_URL ++ "/static/scripts/" ++ js)%string 1
    = Page 200 content /\
    search_client_id content = Some i /\
    search_client_secret content = Some secret.

(** [CC98Client.__init__], given what [os.getenv] returns for the user name
    and the password. *)
Definition __init__ (username password : option string)
  : Result (Client * list string) :=
  if negb (Py.truthy username) || negb (Py.truthy password)
  then Raise ValueError
  else Ok (_update_credentials_from_web blank_client).

End Discovery.

(** The state [main] starts from with a freshly constructed client: the
    session has made the requests of the discovery. *)
Definition constructed (cr : Client * list string) : State :=
  {| client := fst cr; clock := length (snd cr); trace := [] |}.

(** ** cc98.py: the board listing *)

(** The (id, name) pairs a board hierarchy assigns, in the order of the two
    nested loops of [_refresh_board_map]. *)
Definition listing (roots : list RootBoard)
  : list (option Z * option string) :=
  flat_map
    (fun root =>
       (root_id root, root_name root)
         :: map (fun b => (board_id b, board_name b)) (boards root))
    roots.

(** One assignment [self.board_map[k] = v]. *)
Definition put (acc : gmap (option Z) (option string))
    (kv : option Z * option string) : gmap (option Z) (option string) :=
  <[fst kv := snd kv]> acc.

(** ** dingtalk.py: configuration *)

Definition configured (env : Env) : bool :=
  Py.truthy (DINGTALK_SEND_URL env) && Py.truthy (DINGTALK_SIGNATURE env).

(** ** main.py: the text of the alert

    [format_message] slices and measures strings by character, so here a
    [str] is the list of its code points. *)

Module Message.

Definition ascii_text (s : string) : list N :=
  map N_of_ascii (list_ascii_of_string s).

Definition newline : list N := [10%N].

(** What [topic.get] returns for the keys [format_message] reads. *)
Record Fields := {
  title : option (list N);
  userName : option (list N);
  id : option Z;
  time : option (list N)
}.

(** [topic.get("time", "")[:19].replace("T", " ")] *)
Definition time_str (t : Fields) : list N :=
  map (fun c => if N.eqb c 84 then 32%N else c) (take 19 (default [] (time t))).

(** The content as shown: cut to 500 characters and an ellipsis when it is
    longer. *)
Definition shown_content (content : list N) : list N :=
  if (500 <? length content)%nat
  then (take 500 content ++ ascii_text "...")%list
  else content.

(** The lines of the f-string before the content. *)
Definition message_head (t : Fields) (board_name : list N) : list N :=
  ([12304%N] ++ ascii_text "CC98 "
     ++ [26032; 24086; 36890; 30693; 12305]%N ++ newline
   ++ [26495; 22359]%N ++ ascii_text ": " ++ board_name ++ newline
   ++ [26631; 39064]%N ++ ascii_text ": "
     ++ default (ascii_text "No Title") (title t) ++ newline
   ++ [20316; 32773]%N ++ ascii_text ": "
     ++ default (ascii_text "Unknown") (userName t) ++ newline
   ++ [26102; 38388]%N ++ ascii_text ": " ++ time_str t ++ newline
   ++ [38142; 25509]%N ++ ascii_text ": https://www.cc98.org/topic/"
     ++ ascii_text (Py.fmt_int (id t)) ++ newline
   ++ ascii_text "----------------" ++ newline)%list.

(** [format_message] *)
Definition format_message (t : Fields) (board_name content : list N)
  : list N :=
  (message_head t board_name ++ shown_content content)%list.

End Message.

(** ** More concrete environments *)

(** A board hierarchy and an environment that serves it; every other request
    fails to connect. *)
Definition jobs_hierarchy : list RootBoard :=
  [ {| root_id := Some 2; root_name := Some "Campus";
       boards := [ {| board_id := Some 459; board_name := Some "Jobs" |};
                   {| board_id := Some 68; board_name := Some "Chat" |} ] |} ].

Definition boards_env (roots : list RootBoard) : Env :=
  {| DINGTALK_SEND_URL := None;
     DINGTALK_SIGNATURE := None;
     connect_token := fun _ => ConnectionError;
     topic_new := fun _ => ConnectionError;
     board_all := fun _ => Response 200 (Some roots);
     topic_post := fun _ _ => ConnectionError;
     webhook := fun _ _ => ConnectionError |}.

(** An environment whose webhook gives [reply]; login succeeds and the other
    requests return empty data. *)
Definition webhook_env (reply : HttpResult WebhookReply) : Env :=
  {| DINGTALK_SEND_URL := Some "https://oapi.example/robot/send?access_token=t";
     DINGTALK_SIGNATURE := Some "SEC";
     connect_token := fun _ => Response 200 (Some sample_tokens);
     topic_new := fun _ => Response 200 (Some next_batch);
     board_all := fun _ => Response 200 (Some jobs_hierarchy);
     topic_post := fun _ _ => Response 200 (Some []);
     webhook := fun _ _ => reply |}.

Definition is_posts_fetch (e : Event) : bool :=
  match e with EvGetPosts _ => true | _ => false end.

Definition is_webhook_post (e : Event) : bool :=
  match e with EvPostWebhook _ => true | _ => false end.

(** Events of a fetch with its recovery: no topic is touched, no post is
    fetched, nothing is posted to the webhook. *)
Definition fetch_only (e : Event) : Prop :=
  no_topic e /\ is_posts_fetch e = false /\ is_webhook_post e = false.

(** Events of a candidate the rule did not match. *)
Definition only_ignores (e : Event) : Prop :=
  e = EvGetAllBoards \/ exists t, e = EvIgnored t.
(** * Properties *)

(** ** Substring containment *)

Lemma append_cons (c : ascii) (a p : string) :
  (String c a ++ p)%string = String c (a ++ p)%string.
Proof. reflexivity. Qed.

Lemma append_nil (p : string) : ("" ++ p)%string = p.
Proof. reflexivity. Qed.

Lemma prefix_split (a b : string) :
  String.prefix a b = true <-> exists post, b = (a ++ post)%string.
Proof.
  revert b; induction a as [|c a IH]; intros b; simpl.
  - split; [intros _; exists b; reflexivity | destruct b; reflexivity].
  - destruct b as [|c' b]; simpl.
    + split; [discriminate | intros [post Hp]; discriminate].
    + destruct (ascii_dec c c') as [->|Hne].
      * rewrite IH. split; intros [post Hp]; exists post.
        -- rewrite append_cons. congruence.
        -- rewrite append_cons in Hp. congruence.
      * split; [discriminate|].
        intros [post Hp]. rewrite append_cons in Hp. congruence.
Qed.

Lemma str_in_nil (needle : string) :
  Py.str_in needle "" = if String.prefix needle "" then true else false.
Proof. reflexivity. Qed.

Lemma str_in_cons (needle : string) (c : ascii) (hay : string) :
  Py.str_in needle (String c hay) =
  if String.prefix needle (String c hay) then true else Py.str_in needle hay.
Proof. reflexivity. Qed.

Lemma str_in_split (needle hay : string) :
  Py.str_in needle hay = true <->
  exists pre post, hay = (pre ++ needle ++ post)%string.
Proof.
  induction hay as [|c hay IH]; [rewrite str_in_nil | rewrite str_in_cons].
  - destruct (String.prefix needle "") eqn:Hp.
    + apply prefix_split in Hp as [post Hp].
      split; [intros _; exists "", post; exact Hp | reflexivity].
    + split; [discriminate|].
      intros [pre [post He]]. destruct pre; [|discriminate].
      rewrite append_nil in He.
      assert (String.prefix needle "" = true) as Hq
          by (apply prefix_split; exists post; exact He).
      congruence.
  - destruct (String.prefix needle (String c hay)) eqn:Hp.
    + apply prefix_split in Hp as [post Hp].
      split; [intros _; exists "", post; exact Hp | reflexivity].
    + rewrite IH. split.
      * intros [pre [post He]]. exists (String c pre), post.
        rewrite append_cons. congruence.
      * intros [pre [post He]]. destruct pre as [|c' pre].
        -- rewrite append_nil in He.
           assert (String.prefix needle (String c hay) = true) as Hq
               by (apply prefix_split; exists post; exact He).
           congruence.
        -- rewrite append_cons in He. exists pre, post. congruence.
Qed.

(** ** The notification rule *)

(** C9: [check_topic_condition] is a function of the topic alone; it holds
    exactly when the board is 459 and the lowercased title contains one of
    the fixed keywords as a substring.  On board 459 the title
    "急招前端开发" matches and "考试周求自习室" does not (lowercasing leaves
    both titles, which have no cased letter, as they are). *)
Theorem check_topic_condition_rule (lower : string -> string) :
  (forall t,
      check_topic_condition lower t = true <->
      boardId t = Some 459 /\
      exists keyword pre post,
        In keyword KEYWORDS /\
        lower (default "" (title t)) = (pre ++ keyword ++ post)%string) /\
  (lower "急招前端开发" = "急招前端开发" ->
   forall t, boardId t = Some 459 -> title t = Some "急招前端开发" ->
             check_topic_condition lower t = true) /\
  (lower "考试周求自习室" = "考试周求自习室" ->
   forall t, boardId t = Some 459 -> title t = Some "考试周求自习室" ->
             check_topic_condition lower t = false).
Proof.
  split; [|split].
  - intros t. unfold check_topic_condition, Py.any.
    destruct (bool_decide (boardId t = Some 459)) eqn:Hb.
    + apply bool_decide_eq_true in Hb.
      destruct (existsb _ KEYWORDS) eqn:Hk.
      * split; [intros _|reflexivity]. split; [exact Hb|].
        apply existsb_exists in Hk as [k [Hin Hs]].
        apply str_in_split in Hs as [pre [post Hs]]. eauto.
      * split; [discriminate|]. intros [_ [k [pre [post [Hin Hs]]]]].
        assert (existsb
                  (fun keyword =>
                     Py.str_in keyword (lower (default "" (title t))))
                  KEYWORDS = true) as Hq.
        { apply existsb_exists. exists k. split; [exact Hin|].
          apply str_in_split. eauto. }
        congruence.
    + apply bool_decide_eq_false in Hb. split; [discriminate|].
      intros [Hb' _]. contradiction.
  - intros Hl t Hb Ht. unfold check_topic_condition.
    rewrite Ht, Hb. simpl default. rewrite Hl. vm_compute. reflexivity.
  - intros Hl t Hb Ht. unfold check_topic_condition.
    rewrite Ht, Hb. simpl default. rewrite Hl. vm_compute. reflexivity.
Qed.

Lemma check_topic_condition_rule_witness :
  check_topic_condition ascii_lower
    {| id := Some 1; boardId := Some 459; title := Some "急招前端开发";
       userName := None; time := None |} = true /\
  check_topic_condition ascii_lower
    {| id := Some 2; boardId := Some 459; title := Some "考试周求自习室";
       userName := None; time := None |} = false.
Proof.
  destruct (check_topic_condition_rule ascii_lower) as [_ [Hyes Hno]].
  split.
  - apply Hyes; reflexivity.
  - apply Hno; reflexivity.
Defined.

(** ** Unfolding the monad *)

Ltac unfold_monad :=
  unfold bind, ret, raise, try_except, log, get_client, modify_client,
    json_of, request in *.

Lemma new_events_app (s s' : State) (d : list Event) :
  trace s' = (trace s ++ d)%list -> new_events s s' = d.
Proof.
  intros H. unfold new_events. rewrite H. apply drop_app_length.
Qed.

Lemma count_app (p : Event -> bool) (d1 d2 : list Event) :
  count p (d1 ++ d2)%list = (count p d1 + count p d2)%nat.
Proof. unfold count. rewrite List.filter_app, length_app. reflexivity. Qed.

(** ** login *)

(** [login] always returns a boolean, and the request counter and the trace
    tell whether the token endpoint was called. *)
Lemma login_cases (env : Env) (s : State) :
  (login env s = (Ok false, record EvLogin s) /\
   (Py.truthy (client_id (client s)) = false \/
    Py.truthy (client_secret (client s)) = false)) \/
  (login env s = (Ok false, advance EvPostToken (record EvLogin s)) /\
   Py.truthy (client_id (client s)) = true /\
   Py.truthy (client_secret (client s)) = true /\
   (connect_token env (clock s) = ConnectionError \/
    (exists st j, connect_token env (clock s) = Response st j /\ st <> 200) \/
    connect_token env (clock s) = Response 200 None)) \/
  (exists td,
      connect_token env (clock s) = Response 200 (Some td) /\
      Py.truthy (client_id (client s)) = true /\
      Py.truthy (client_secret (client s)) = true /\
      login env s =
      (Ok true,
       set_client
         (set_authorization ("Bearer " ++ Py.fmt_str (token_access td))
            (set_tokens (token_access td) (token_refresh td) (client s)))
         (advance EvPostToken (record EvLogin s)))).
Proof.
  unfold login. unfold_monad. simpl.
  destruct (Py.truthy (client_id (client s))) eqn:Hid; simpl;
    [|left; split; [reflexivity | left; reflexivity]].
  destruct (Py.truthy (client_secret (client s))) eqn:Hsec; simpl;
    [|left; split; [reflexivity | right; reflexivity]].
  right.
  destruct (connect_token env (clock s)) as [|st j] eqn:Hresp; simpl.
  - left. repeat split; auto.
  - destruct (Z.eqb_spec st 200) as [->|Hst]; simpl.
    + destruct j as [td|]; simpl.
      * right. exists td. repeat split; auto.
      * left. repeat split; auto.
    + left. repeat split; auto. right; left. eauto.
Qed.

Lemma login_total (env : Env) (s : State) :
  exists ok s', login env s = (Ok ok, s').
Proof.
  destruct (login_cases env s) as [[H _]|[[H _]|[td [_ [_ [_ H]]]]]];
    rewrite H; eauto.
Qed.

(** C7: [login] returns false without any network call when [client_id] or
    [client_secret] is unresolved; on every failure (unresolved credentials,
    a non-200 token response, a network exception) it returns false, and
    whenever it returns false the stored [access_token] and [refresh_token]
    are the ones it found. *)
Theorem login_failure_keeps_tokens (env : Env) (s : State) :
  (Py.truthy (client_id (client s)) = false \/
   Py.truthy (client_secret (client s)) = false ->
   login env s = (Ok false, record EvLogin s) /\
   clock (snd (login env s)) = clock s /\
   count is_request (new_events s (snd (login env s))) = 0%nat) /\
  (forall st j,
      connect_token env (clock s) = Response st j -> st <> 200 ->
      fst (login env s) = Ok false) /\
  (connect_token env (clock s) = ConnectionError ->
   fst (login env s) = Ok false) /\
  (fst (login env s) = Ok false ->
   access_token (client (snd (login env s))) = access_token (client s) /\
   refresh_token (client (snd (login env s))) = refresh_token (client s)).
Proof.
  destruct (login_cases env s)
    as [[H Hc]|[[H [Hid [Hsec Hr]]]|[td [Hr [Hid [Hsec H]]]]]]; rewrite H;
    simpl.
  - split; [intros _|repeat split; auto].
    split; [reflexivity|]. split; [reflexivity|].
    rewrite (new_events_app s (record EvLogin s) [EvLogin]); reflexivity.
  - split; [intros [Hf|Hf]; congruence|].
    repeat split; auto.
  - split; [intros [Hf|Hf]; congruence|].
    split; [intros st j Hq Hst; congruence|].
    split; [intros Hq; congruence | intros Hq; discriminate].
Qed.

Lemma login_failure_keeps_tokens_witness :
  let env := sample_env (fun _ => Response 401 None)
                        (fun _ => Response 200 (Some [])) in
  let unresolved :=
    {| client := sample_client None; clock := 0; trace := [] |} in
  let resolved :=
    {| client := sample_client (Some "id"); clock := 0; trace := [] |} in
  login env unresolved = (Ok false, record EvLogin unresolved) /\
  fst (login env resolved) = Ok false /\
  access_token (client (snd (login env resolved))) = Some "old-access" /\
  refresh_token (client (snd (login env resolved))) = Some "old-refresh".
Proof.
  intros env unresolved resolved.
  destruct (login_failure_keeps_tokens env unresolved) as [Hu _].
  destruct (login_failure_keeps_tokens env resolved) as [_ [Hn [_ Hk]]].
  split; [apply Hu; left; reflexivity|].
  assert (fst (login env resolved) = Ok false) as Hf.
  { apply (Hn 401 None); [reflexivity | lia]. }
  split; [exact Hf|]. exact (Hk Hf).
Defined.

(** ** Events added by a computation *)

Section Quiet.

Variable phi : Event -> Prop.

Lemma quiet_ret {A} (a : A) : quiet phi (ret a).
Proof. intros s. exists []. simpl. rewrite app_nil_r. auto. Qed.

Lemma quiet_raise {A} (e : Exn) : quiet phi (@raise A e).
Proof. intros s. exists []. simpl. rewrite app_nil_r. auto. Qed.

Lemma quiet_get_client : quiet phi get_client.
Proof. intros s. exists []. simpl. rewrite app_nil_r. auto. Qed.

Lemma quiet_modify_client (f : Client -> Client) :
  quiet phi (modify_client f).
Proof. intros s. exists []. simpl. rewrite app_nil_r. auto. Qed.

Lemma quiet_json_of {J} (j : option J) : quiet phi (json_of j).
Proof. destruct j; [apply quiet_ret | apply quiet_raise]. Qed.

Lemma quiet_log (ev : Event) : phi ev -> quiet phi (log ev).
Proof. intros H s. exists [ev]. simpl. auto. Qed.

Lemma quiet_request {J} (ev : Event) (oracle : nat -> HttpResult J) :
  phi ev -> quiet phi (request ev oracle).
Proof.
  intros H s. exists [ev]. unfold request.
  destruct (oracle (clock s)); simpl; auto.
Qed.

Lemma quiet_bind {A B} (c : M A) (k : A -> M B) :
  quiet phi c -> (forall a, quiet phi (k a)) -> quiet phi (bind c k).
Proof.
  intros Hc Hk s. unfold bind.
  destruct (Hc s) as [d [Hd Hf]].
  destruct (c s) as [[a|e] s1]; simpl in *.
  - destruct (Hk a s1) as [d2 [Hd2 Hf2]].
    exists (d ++ d2)%list. rewrite Hd2, Hd, app_assoc.
    split; [reflexivity | apply Forall_app; auto].
  - exists d. auto.
Qed.

Lemma quiet_try_except {A} (c : M A) (h : Exn -> M A) :
  quiet phi c -> (forall e, quiet phi (h e)) -> quiet phi (try_except c h).
Proof.
  intros Hc Hh s. unfold try_except.
  destruct (Hc s) as [d [Hd Hf]].
  destruct (c s) as [[a|e] s1]; simpl in *.
  - exists d. auto.
  - destruct (Hh e s1) as [d2 [Hd2 Hf2]].
    exists (d ++ d2)%list. rewrite Hd2, Hd, app_assoc.
    split; [reflexivity | apply Forall_app; auto].
Qed.

Lemma quiet_if {A} (b : bool) (c1 c2 : M A) :
  quiet phi c1 -> quiet phi c2 -> quiet phi (if b then c1 else c2).
Proof. destruct b; auto. Qed.

Variable env : Env.

Lemma quiet_get_new_topics :
  phi EvGetNewTopics -> quiet phi (get_new_topics env).
Proof.
  intros H. apply quiet_bind; [apply quiet_request; exact H|].
  intros a. apply quiet_if; [apply quiet_json_of | apply quiet_ret].
Qed.

Lemma quiet_get_all_boards :
  phi EvGetAllBoards -> quiet phi (get_all_boards env).
Proof.
  intros H. apply quiet_bind; [apply quiet_request; exact H|].
  intros a. apply quiet_if; [apply quiet_json_of | apply quiet_ret].
Qed.

Lemma quiet_login :
  phi EvLogin -> phi EvPostToken -> quiet phi (login env).
Proof.
  intros Hl Hp. apply quiet_bind; [apply quiet_log; exact Hl|].
  intros _. apply quiet_bind; [apply quiet_get_client|].
  intros c. apply quiet_if; [apply quiet_ret|].
  apply quiet_try_except; [|intros e; apply quiet_ret].
  apply quiet_bind; [apply quiet_request; exact Hp|].
  intros r. apply quiet_if; [|apply quiet_ret].
  apply quiet_bind; [apply quiet_json_of|].
  intros td. apply quiet_bind; [apply quiet_modify_client|].
  intros _. apply quiet_bind; [apply quiet_modify_client|].
  intros _. apply quiet_ret.
Qed.

Lemma quiet_refresh_board_map :
  phi EvGetAllBoards -> quiet phi (_refresh_board_map env).
Proof.
  intros H. apply quiet_try_except; [|intros e; apply quiet_ret].
  apply quiet_bind; [apply quiet_get_all_boards; exact H|].
  intros roots. apply quiet_modify_client.
Qed.

Lemma quiet_get_board_name (b : option Z) :
  phi EvGetAllBoards -> quiet phi (get_board_name env b).
Proof.
  intros H. apply quiet_bind; [apply quiet_get_client|].
  intros c. apply quiet_bind.
  { apply quiet_if; [apply quiet_refresh_board_map; exact H|apply quiet_ret]. }
  intros _. apply quiet_bind; [apply quiet_get_client|].
  intros c'. apply quiet_bind; [|intros name; apply quiet_ret].
  apply quiet_if; [|apply quiet_ret].
  apply quiet_bind; [apply quiet_refresh_board_map; exact H|].
  intros _. apply quiet_bind; [apply quiet_get_client|].
  intros c''. apply quiet_ret.
Qed.

Lemma quiet_send_dingtalk_message (msg : string) :
  phi (EvPostWebhook msg) -> quiet phi (send_dingtalk_message env msg).
Proof.
  intros H. unfold send_dingtalk_message.
  apply quiet_if; [apply quiet_ret|].
  apply quiet_bind; [apply quiet_request; exact H|].
  intros r. apply quiet_if; [apply quiet_ret|].
  apply quiet_bind; [apply quiet_json_of|].
  intros reply. destruct (errcode reply); [|apply quiet_raise].
  apply quiet_if; [|apply quiet_ret].
  destruct (errmsg reply); [apply quiet_ret | apply quiet_raise].
Qed.

End Quiet.

(** ** Selecting and ordering the candidates *)

Lemma newer_than_In (max_id : Z) (topics : list Topic) (t : Topic) :
  In t (newer_than max_id topics) <-> In t topics /\ max_id < topic_id t.
Proof.
  unfold newer_than. rewrite List.filter_In, Z.ltb_lt. reflexivity.
Qed.

Lemma insert_by_id_perm (t : Topic) (l : list Topic) :
  Permutation (insert_by_id t l) (t :: l).
Proof.
  induction l as [|u l IH]; simpl; [reflexivity|].
  destruct (topic_id t <=? topic_id u); [reflexivity|].
  rewrite IH. apply perm_swap.
Qed.

Lemma sort_by_id_perm (l : list Topic) : Permutation (sort_by_id l) l.
Proof.
  induction l as [|t l IH]; simpl; [reflexivity|].
  rewrite insert_by_id_perm, IH. reflexivity.
Qed.

Lemma sort_by_id_In (l : list Topic) (t : Topic) :
  In t (sort_by_id l) <-> In t l.
Proof.
  split; apply Permutation_in;
    [apply sort_by_id_perm | symmetry; apply sort_by_id_perm].
Qed.

Lemma insert_by_id_sorted (t : Topic) (l : list Topic) :
  StronglySorted id_le l -> StronglySorted id_le (insert_by_id t l).
Proof.
  induction l as [|u l IH]; intros Hs; simpl.
  - constructor; [constructor | constructor].
  - inversion Hs as [|u' l' Hl Hu]; subst.
    destruct (Z.leb_spec (topic_id t) (topic_id u)) as [Hle|Hgt].
    + constructor; [exact Hs|].
      constructor; [exact Hle|].
      eapply List.Forall_impl; [|exact Hu]. unfold id_le. intros a Ha. lia.
    + constructor; [apply IH; exact Hl|].
      apply (Permutation_Forall (x := t :: l)).
      * symmetry. apply insert_by_id_perm.
      * constructor; [unfold id_le; lia | exact Hu].
Qed.

Lemma sort_by_id_sorted (l : list Topic) : StronglySorted id_le (sort_by_id l).
Proof.
  induction l as [|t l IH]; simpl; [constructor|].
  apply insert_by_id_sorted. exact IH.
Qed.







(** ** The board directory *)

Lemma set_board_map_same (c : Client) : set_board_map (board_map c) c = c.
Proof. destruct c; reflexivity. Qed.

(** A refresh never raises; it issues one request and replaces the mapping
    by an extension of it, or keeps it when the fetch raised. *)
Lemma refresh_board_map_run (env : Env) (s : State) :
  exists m,
    _refresh_board_map env s =
    (Ok tt, set_client (set_board_map m (client s)) (advance EvGetAllBoards s)) /\
    m = match getter_result (board_all env (clock s)) with
        | Ok roots => add_root_boards roots (board_map (client s))
        | Raise _ => board_map (client s)
        end.
Proof.
  unfold _refresh_board_map, get_all_boards. unfold_monad. simpl.
  destruct (board_all env (clock s)) as [|st j]; simpl.
  - exists (board_map (client s)). split; [|reflexivity].
    rewrite set_board_map_same. reflexivity.
  - destruct (Z.eqb st 200); simpl.
    + destruct j as [roots|]; simpl.
      * eexists; split; reflexivity.
      * exists (board_map (client s)). split; [|reflexivity].
        rewrite set_board_map_same. reflexivity.
    + eexists; split; reflexivity.
Qed.

Lemma refresh_board_map_facts (env : Env) (s : State) :
  fst (_refresh_board_map env s) = Ok tt /\
  clock (snd (_refresh_board_map env s)) = S (clock s) /\
  trace (snd (_refresh_board_map env s)) = (trace s ++ [EvGetAllBoards])%list.
Proof.
  destruct (refresh_board_map_run env s) as [m [H _]]. rewrite H.
  repeat split.
Qed.

(** The state in which [get_board_name] makes its first lookup. *)
Lemma get_board_name_run (env : Env) (b : option Z) (s : State) :
  let s1 := if bool_decide (board_map (client s) = ∅)
            then snd (_refresh_board_map env s) else s in
  let s2 := snd (_refresh_board_map env s1) in
  get_board_name env b s =
  if Py.truthy (Py.dict_get (board_map (client s1)) b)
  then (Ok (Py.fmt_str (Py.dict_get (board_map (client s1)) b)), s1)
  else if Py.truthy (Py.dict_get (board_map (client s2)) b)
       then (Ok (Py.fmt_str (Py.dict_get (board_map (client s2)) b)), s2)
       else (Ok (unknown_board b), s2).
Proof.
  intros s1 s2. unfold get_board_name.
  unfold bind at 1. unfold get_client at 1.
  unfold bind at 1.
  assert ((if bool_decide (board_map (client s) = ∅)
           then _refresh_board_map env else ret tt) s = (Ok tt, s1)) as ->.
  { subst s1. destruct (bool_decide (board_map (client s) = ∅));
      [|reflexivity].
    destruct (refresh_board_map_run env s) as [m [H _]]. rewrite H.
    reflexivity. }
  unfold bind at 1. unfold get_client at 1.
  destruct (Py.truthy (Py.dict_get (board_map (client s1)) b)) eqn:H1; simpl.
  - unfold_monad. rewrite H1. reflexivity.
  - unfold bind at 1. unfold bind at 1.
    destruct (refresh_board_map_run env s1) as [m [H _]].
    fold s2. assert (_refresh_board_map env s1 = (Ok tt, s2)) as ->.
    { subst s2. rewrite H. reflexivity. }
    unfold_monad.
    destruct (Py.truthy (Py.dict_get (board_map (client s2)) b));
      reflexivity.
Qed.

Lemma get_board_name_total (env : Env) (b : option Z) (s : State) :
  exists name s', get_board_name env b s = (Ok name, s').
Proof.
  rewrite get_board_name_run.
  repeat match goal with |- context [if ?c then _ else _] =>
    destruct c end; eauto.
Qed.

Lemma truthy_Some (o : option string) :
  Py.truthy o = true <-> exists n, o = Some n /\ n <> "".
Proof.
  destruct o as [n|]; simpl.
  - destruct (String.eqb_spec n ""); simpl.
    + split; [discriminate | intros [n' [He Hn]]; congruence].
    + split; [intros _; eauto | reflexivity].
  - split; [discriminate | intros [n [He _]]; discriminate].
Qed.

Lemma board_fetches_app (s s' : State) (d : list Event) :
  trace s' = (trace s ++ d)%list ->
  board_fetches s s' = count is_board_fetch d.
Proof.
  intros H. unfold board_fetches. rewrite (new_events_app s s' d H).
  reflexivity.
Qed.

(** The three ways a call of [get_board_name] can go. *)
Lemma get_board_name_cases (env : Env) (b : option Z) (s : State) :
  let s1 := snd (_refresh_board_map env s) in
  (board_map (client s) <> ∅ /\
   Py.truthy (stored_name s b) = true /\
   get_board_name env b s = (Ok (Py.fmt_str (stored_name s b)), s)) \/
  (board_map (client s) <> ∅ /\
   Py.truthy (stored_name s b) = false /\
   board_fetches s s1 = 1%nat /\
   get_board_name env b s =
   (Ok (if Py.truthy (stored_name s1 b) then Py.fmt_str (stored_name s1 b)
        else unknown_board b), s1)) \/
  (board_map (client s) = ∅ /\
   Py.truthy (stored_name s1 b) = true /\
   board_fetches s s1 = 1%nat /\
   get_board_name env b s = (Ok (Py.fmt_str (stored_name s1 b)), s1)) \/
  (let s2 := snd (_refresh_board_map env s1) in
   board_map (client s) = ∅ /\
   Py.truthy (stored_name s1 b) = false /\
   board_fetches s s2 = 2%nat /\
   get_board_name env b s =
   (Ok (if Py.truthy (stored_name s2 b) then Py.fmt_str (stored_name s2 b)
        else unknown_board b), s2)).
Proof.
  intros s1. rewrite get_board_name_run. cbv zeta. fold s1.
  set (s2 := snd (_refresh_board_map env s1)). unfold stored_name.
  destruct (refresh_board_map_facts env s) as [_ [_ Ht1]]. fold s1 in Ht1.
  destruct (bool_decide (board_map (client s) = ∅)) eqn:He.
  - apply bool_decide_eq_true in He. right; right.
    destruct (Py.truthy (Py.dict_get (board_map (client s1)) b)) eqn:H1.
    + left. repeat split; auto.
      rewrite (board_fetches_app s s1 _ Ht1). reflexivity.
    + right.
      destruct (refresh_board_map_facts env s1) as [_ [_ Ht2]]. fold s2 in Ht2.
      rewrite Ht1, <- app_assoc in Ht2.
      repeat split; auto.
      * rewrite (board_fetches_app s s2 _ Ht2). reflexivity.
      * fold s2.
        destruct (Py.truthy (Py.dict_get (board_map (client s2)) b));
          reflexivity.
  - apply bool_decide_eq_false in He.
    destruct (Py.truthy (Py.dict_get (board_map (client s)) b)) eqn:H1.
    + left. repeat split; auto.
    + right; left. repeat split; auto.
      * rewrite (board_fetches_app s s1 _ Ht1). reflexivity.
      * fold s1.
        destruct (Py.truthy (Py.dict_get (board_map (client s1)) b));
          reflexivity.
Qed.

Lemma stored_name_empty (s : State) (b : option Z) :
  board_map (client s) = ∅ -> stored_name s b = None.
Proof.
  intros H. unfold stored_name, Py.dict_get. rewrite H, lookup_empty.
  reflexivity.
Qed.

(** C8: [get_board_name] always returns a string and never
    raises.  The result is read from the mapping the call leaves behind: the
    stored name when it is a non-empty string, the placeholder
    "Unknown Board (<id>)" otherwise.  The placeholder is a fallback reached
    only after the lookup failed twice -- in the mapping found at entry
    (after the initial fill, when that mapping was empty) and again after
    exactly one additional refresh -- so never before a fetch was attempted:
    a call that issues no request returns a stored non-empty name.  Every id
    whose stored name is a non-empty string gets that name, without any
    request. *)
Theorem get_board_name_fallback (env : Env) (b : option Z) (s : State) :
  let r := get_board_name env b s in
  (exists name, fst r = Ok name) /\
  (forall n, stored_name s b = Some n -> n <> "" -> r = (Ok n, s)) /\
  (board_fetches s (snd r) = 0%nat ->
   exists n, stored_name s b = Some n /\ n <> "" /\ fst r = Ok n) /\
  fst r = Ok (if Py.truthy (stored_name (snd r) b)
              then Py.fmt_str (stored_name (snd r) b)
              else unknown_board b) /\
  (Py.truthy (stored_name (snd r) b) = false ->
   Py.truthy (stored_name s b) = false /\
   (board_map (client s) = ∅ ->
    Py.truthy (stored_name (snd (_refresh_board_map env s)) b) = false /\
    board_fetches s (snd r) = 2%nat) /\
   (board_map (client s) <> ∅ -> board_fetches s (snd r) = 1%nat)).
Proof.
  intros r. subst r.
  destruct (get_board_name_cases env b s)
    as [[Hne [H1 Hr]]|[[Hne [H1 [Hf Hr]]]|[[He [H1 [Hf Hr]]]|[He [H1 [Hf Hr]]]]]];
    rewrite Hr; simpl fst; simpl snd.
  - split; [eauto|]. split.
    { intros n Hn _. rewrite Hn. reflexivity. }
    split.
    { intros _. apply truthy_Some in H1 as [n [Hn Hnn]].
      exists n. rewrite Hn. auto. }
    split; [rewrite H1; reflexivity|].
    intros Hq. congruence.
  - split; [eauto|]. split.
    { intros n Hn Hnn.
      assert (Py.truthy (stored_name s b) = true)
        by (apply truthy_Some; eauto).
      congruence. }
    split; [intros Hq; congruence|].
    split.
    { destruct (Py.truthy (stored_name _ b)); reflexivity. }
    intros Hq. split; [exact H1|]. split; [intros Hq'; contradiction|].
    intros _. exact Hf.
  - split; [eauto|]. split.
    { intros n Hn _. rewrite (stored_name_empty s b He) in Hn. discriminate. }
    split; [intros Hq; congruence|].
    split; [rewrite H1; reflexivity|].
    intros Hq. congruence.
  - split; [eauto|]. split.
    { intros n Hn _. rewrite (stored_name_empty s b He) in Hn. discriminate. }
    split; [intros Hq; congruence|].
    split.
    { destruct (Py.truthy (stored_name _ b)); reflexivity. }
    intros Hq. split.
    { rewrite (stored_name_empty s b He). reflexivity. }
    split; [intros _; split; [exact H1 | exact Hf]|].
    intros Hq'. contradiction.
Qed.

Lemma get_board_name_fallback_witness :
  let s := start (client_with_boards {[ Some 459 := Some "Jobs" ]}) in
  get_board_name offline_env (Some 459) s = (Ok "Jobs", s) /\
  Py.truthy (stored_name s (Some 7)) = false /\
  board_fetches s (snd (get_board_name offline_env (Some 7) s)) = 1%nat.
Proof.
  intros s.
  destruct (get_board_name_fallback offline_env (Some 459) s)
    as [_ [Hstored _]].
  destruct (get_board_name_fallback offline_env (Some 7) s)
    as [_ [_ [_ [_ Hmiss]]]].
  split; [apply Hstored; [reflexivity | discriminate]|].
  destruct Hmiss as [Hentry [_ Hone]]; [reflexivity|].
  split; [exact Hentry|].
  apply Hone. vm_compute. discriminate.
Defined.

(** C8, stored empty name: an id present in the mapping is not always given
    its stored name.  When that name is the empty string the lookup counts
    as a miss and the placeholder is returned. *)
Lemma get_board_name_stored_name_counterexample :
  ~ (forall (env : Env) (b : option Z) (s : State) (n : string),
        board_map (client s) !! b = Some (Some n) ->
        fst (get_board_name env b s) = Ok n).
Proof.
  intros H.
  specialize (H offline_env (Some 5)
                (start (client_with_boards {[ Some 5 := Some "" ]})) "").
  assert (fst (get_board_name offline_env (Some 5)
                 (start (client_with_boards {[ Some 5 := Some "" ]})))
          = Ok "Unknown Board (5)") as Hrun by (vm_compute; reflexivity).
  rewrite Hrun in H. specialize (H eq_refl). discriminate.
Qed.

(** ** The getters *)

Lemma get_new_topics_run (env : Env) (s : State) :
  get_new_topics env s =
  (getter_result (topic_new env (clock s)), advance EvGetNewTopics s).
Proof.
  unfold get_new_topics, getter_result. unfold_monad.
  destruct (topic_new env (clock s)) as [|st j]; simpl; [reflexivity|].
  destruct (Z.eqb st 200); [|reflexivity].
  destruct j; reflexivity.
Qed.

Lemma get_posts_run (env : Env) (t : Z) (s : State) :
  get_posts env t s =
  (getter_result (topic_post env t (clock s)), advance (EvGetPosts t) s).
Proof.
  unfold get_posts, getter_result. unfold_monad.
  destruct (topic_post env t (clock s)) as [|st j]; simpl; [reflexivity|].
  destruct (Z.eqb st 200); [|reflexivity].
  destruct j; reflexivity.
Qed.

(** ** One candidate *)

Lemma bind_ok {A B} (c : M A) (k : A -> M B) (s s1 : State) (a : A) :
  c s = (Ok a, s1) -> bind c k s = k a s1.
Proof. intros H. unfold bind. rewrite H. reflexivity. Qed.

Lemma bind_ret_result {A B} (c : M A) (v : B) (s : State) :
  bind c (fun _ => ret v) s =
  (match fst (c s) with Ok _ => Ok v | Raise e => Raise e end, snd (c s)).
Proof. unfold bind. destruct (c s) as [[a|e] s1]; reflexivity. Qed.

Lemma evaluated_app (d1 d2 : list Event) :
  evaluated (d1 ++ d2)%list = (evaluated d1 ++ evaluated d2)%list.
Proof. apply flat_map_app. Qed.

Lemma dispatched_app (d1 d2 : list Event) :
  dispatched (d1 ++ d2)%list = (dispatched d1 ++ dispatched d2)%list.
Proof. apply flat_map_app. Qed.

Lemma no_topic_evaluated (d : list Event) :
  Forall no_topic d -> evaluated d = [] /\ dispatched d = [].
Proof.
  induction 1 as [|e d [He1 He2] _ [IH1 IH2]]; [split; reflexivity|].
  unfold evaluated, dispatched in *. simpl. rewrite He1, He2, IH1, IH2.
  split; reflexivity.
Qed.

Section Loop.

Variable lower : string -> string.
Variable format_message : Topic -> string -> string -> string.
Variable env : Env.

Local Abbreviation check := (check_topic_condition lower).
Local Abbreviation process := (process_topic lower format_message env).

Lemma fetch_content_run (t : Z) (s : State) :
  exists text,
    fetch_content env t s = (Ok text, advance (EvGetPosts t) s).
Proof.
  unfold fetch_content, try_except, bind. rewrite get_posts_run.
  destruct (getter_result (topic_post env t (clock s))) as [[|p ps]|e];
    simpl; eauto.
Qed.

(** A processed candidate raises the running maximum to its id, unless
    the dispatch raised. *)
Lemma process_topic_result (t : Topic) (m : Z) (s : State) :
  fst (process t m s) = Ok (Z.max m (topic_id t)) \/
  exists e, fst (process t m s) = Raise e.
Proof.
  unfold process_topic. rewrite bind_ret_result. simpl fst.
  match goal with |- context [fst ?x] => destruct (fst x) end.
  - left. f_equal. destruct (Z.ltb_spec m (topic_id t)); lia.
  - right. eauto.
Qed.

(** Its events name this topic once as evaluated, and once as dispatched
    when the rule matched. *)
Lemma process_topic_events (t : Topic) (m : Z) (s : State) :
  exists d,
    trace (snd (process t m s)) = (trace s ++ d)%list /\
    evaluated d = [topic_id t] /\
    dispatched d = (if check t then [topic_id t] else []) /\
    Forall (fun e => is_login e = false /\ is_fetch e = false /\
                     is_sleep e = false) d.
Proof.
  unfold process_topic. rewrite bind_ret_result. simpl snd.
  set (phi := fun e => no_topic e /\ is_login e = false /\
                       is_fetch e = false /\ is_sleep e = false).
  assert (forall d, Forall phi d ->
            evaluated d = [] /\ dispatched d = [] /\
            Forall (fun e => is_login e = false /\ is_fetch e = false /\
                             is_sleep e = false) d) as Hphi.
  { intros d Hd.
    destruct (no_topic_evaluated d) as [H1 H2].
    { eapply List.Forall_impl; [|exact Hd]. intros e He. apply He. }
    split; [exact H1|]. split; [exact H2|].
    eapply List.Forall_impl; [|exact Hd]. intros e He. apply He. }
  assert (phi EvGetAllBoards) as Hb by (repeat split).
  destruct (get_board_name_total env (boardId t) s) as [name [s1 Hn]].
  destruct (quiet_get_board_name phi env (boardId t) Hb s)
    as [d1 [Hd1 Hf1]].
  rewrite Hn in Hd1. simpl in Hd1.
  destruct (Hphi d1 Hf1) as [He1 [Hs1 Hq1]].
  destruct (check t) eqn:Hc.
  - rewrite (bind_ok _ _ _ _ _ Hn).
    destruct (fetch_content_run (topic_id t) s1) as [text Ht].
    rewrite (bind_ok _ _ _ _ _ Ht).
    unfold DEBUG.
    set (msg := format_message t name text).
    set (s2 := advance (EvGetPosts (topic_id t)) s1).
    rewrite (bind_ok _ _ s2 (record (EvDispatch (topic_id t) msg) s2) tt)
      by reflexivity.
    assert (phi (EvPostWebhook msg)) as Hw by (repeat split).
    destruct (quiet_send_dingtalk_message phi env msg Hw
                (record (EvDispatch (topic_id t) msg) s2))
      as [d3 [Hd3 Hf3]].
    destruct (Hphi d3 Hf3) as [He3 [Hs3 Hq3]].
    exists (d1 ++ [EvGetPosts (topic_id t)]
               ++ [EvDispatch (topic_id t) msg] ++ d3)%list.
    split.
    { rewrite Hd3. simpl. rewrite Hd1. rewrite <- !app_assoc. reflexivity. }
    rewrite !evaluated_app, !dispatched_app, He1, Hs1, He3, Hs3.
    split; [reflexivity|]. split; [reflexivity|].
    repeat (apply Forall_app; split); auto.
  - rewrite (bind_ok _ _ _ _ _ Hn). unfold log. simpl.
    exists (d1 ++ [EvIgnored (topic_id t)])%list.
    split; [rewrite Hd1, <- app_assoc; reflexivity|].
    rewrite !evaluated_app, !dispatched_app, He1, Hs1.
    split; [reflexivity|]. split; [reflexivity|].
    apply Forall_app; split; auto.
Qed.

End Loop.

(** ** The candidate loop *)

Lemma fold_max_bounds (l : list Z) (m : Z) :
  m <= fold_left Z.max l m /\
  (forall x, In x l -> x <= fold_left Z.max l m) /\
  (fold_left Z.max l m = m \/ In (fold_left Z.max l m) l).
Proof.
  revert m; induction l as [|x l IH]; intros m; simpl.
  - split; [lia|]. split; [intros x []|left; reflexivity].
  - destruct (IH (Z.max m x)) as [H1 [H2 H3]].
    split; [lia|]. split.
    + intros y [->|Hy]; [lia | apply H2; exact Hy].
    + destruct H3 as [H3|H3]; [|right; right; exact H3].
      destruct (Z.max_spec m x) as [[_ He]|[_ He]];
        [right; left | left]; congruence.
Qed.

Section Cycle.

Variable lower : string -> string.
Variable format_message : Topic -> string -> string -> string.
Variable env : Env.

Local Abbreviation check := (check_topic_condition lower).
Local Abbreviation process := (process_topic lower format_message env).
Local Abbreviation loop := (for_topics lower format_message env).

Lemma for_topics_result (l : list Topic) (m : Z) (s : State) (m' : Z) :
  fst (loop l m s) = Ok m' -> m' = fold_left Z.max (map topic_id l) m.
Proof.
  revert m s; induction l as [|t l IH]; intros m s; simpl.
  - unfold ret. simpl. congruence.
  - unfold bind.
    destruct (process_topic_result lower format_message env t m s)
      as [Hr|[e Hr]];
      destruct (process t m s) as [[m1|e1] s1]; simpl in Hr;
      try discriminate.
    injection Hr as ->. apply IH.
Qed.

Lemma for_topics_events (l : list Topic) (m : Z) (s : State) :
  exists d k,
    trace (snd (loop l m s)) = (trace s ++ d)%list /\
    evaluated d = map topic_id (take k l) /\
    dispatched d = map topic_id (List.filter check (take k l)) /\
    ((exists m', fst (loop l m s) = Ok m') -> take k l = l) /\
    Forall (fun e => is_login e = false /\ is_fetch e = false /\
                     is_sleep e = false) d.
Proof.
  revert m s; induction l as [|t l IH]; intros m s.
  - exists [], 0%nat. simpl. rewrite app_nil_r. repeat split; auto.
  - simpl. unfold bind.
    destruct (process_topic_events lower format_message env t m s)
      as [d1 [Hd1 [He1 [Hs1 Hq1]]]].
    destruct (process t m s) as [[m1|e1] s1]; simpl in Hd1.
    + destruct (IH m1 s1) as [d2 [k [Hd2 [He2 [Hs2 [Hok Hq2]]]]]].
      exists (d1 ++ d2)%list, (S k).
      split; [rewrite Hd2, Hd1, app_assoc; reflexivity|].
      rewrite evaluated_app, dispatched_app, He1, Hs1, He2, Hs2.
      split; [reflexivity|]. split.
      { simpl. destruct (check t); reflexivity. }
      split; [|apply Forall_app; split; auto].
      intros Hex. simpl. f_equal. apply Hok. exact Hex.
    + exists d1, 1%nat. simpl.
      split; [exact Hd1|]. split; [exact He1|].
      split; [rewrite Hs1; destruct (check t); reflexivity|].
      split; [|exact Hq1].
      intros [m' Hm]. discriminate.
Qed.

(** *** One cycle, step by step *)

Lemma fetch_with_recovery_run (s : State) :
  fetch_with_recovery env s =
  match getter_result (topic_new env (clock s)) with
  | Raise e => (Raise e, advance EvGetNewTopics s)
  | Ok (t :: ts) => (Ok (t :: ts), advance EvGetNewTopics s)
  | Ok [] =>
      match login env (advance EvGetNewTopics s) with
      | (Ok true, s2) => get_new_topics env s2
      | (Ok false, s2) => (Ok [], s2)
      | (Raise e, s2) => (Raise e, s2)
      end
  end.
Proof.
  unfold fetch_with_recovery. unfold bind at 1. rewrite get_new_topics_run.
  destruct (getter_result (topic_new env (clock s))) as [[|t ts]|e];
    try reflexivity.
  unfold bind.
  destruct (login env (advance EvGetNewTopics s)) as [[[|]|e] s2];
    reflexivity.
Qed.

Lemma cycle_body_run (m : Z) (s : State) :
  cycle_body lower format_message env m s =
  match fetch_with_recovery env s with
  | (Ok (t :: ts), s1) => loop (sort_by_id (newer_than m (t :: ts))) m s1
  | (Ok [], s1) => (Ok m, s1)
  | (Raise e, s1) => (Raise e, s1)
  end.
Proof.
  unfold cycle_body, bind.
  destruct (fetch_with_recovery env s) as [[[|t ts]|e] s1]; reflexivity.
Qed.

Lemma cycle_run (m : Z) (s : State) :
  cycle lower format_message env m s =
  match cycle_body lower format_message env m (record (EvSleep INTERVAL) s)
  with
  | (Ok m', s') => (Ok m', s')
  | (Raise _, s') => (Ok m, s')
  end.
Proof.
  unfold cycle, bind, log, try_except.
  destruct (cycle_body lower format_message env m
              (record (EvSleep INTERVAL) s)) as [[m'|e] s']; reflexivity.
Qed.

Lemma getter_result_ok {J} (r : HttpResult (list J)) (l : list J) :
  getter_result r = Ok l -> l = [] \/ r = Response 200 (Some l).
Proof.
  destruct r as [|st j]; simpl; [discriminate|].
  destruct (Z.eqb_spec st 200) as [->|Hne].
  - destruct j; [|discriminate]. intros H. right. congruence.
  - intros H. left. congruence.
Qed.

(** A fetched batch is empty or is the body of some 200 response. *)
Lemma fetch_with_recovery_source (s s1 : State) (topics : list Topic) :
  fetch_with_recovery env s = (Ok topics, s1) ->
  topics = [] \/ exists n, topic_new env n = Response 200 (Some topics).
Proof.
  rewrite fetch_with_recovery_run.
  destruct (getter_result (topic_new env (clock s))) as [[|t ts]|e] eqn:Hr.
  - destruct (login env (advance EvGetNewTopics s)) as [[[|]|e] s2].
    + rewrite get_new_topics_run. intros H.
      injection H as H _.
      apply getter_result_ok in H as [H|H]; [left; exact H|right; eauto].
    + intros H. left. congruence.
    + discriminate.
  - intros H. injection H as <- _.
    apply getter_result_ok in Hr as [Hr|Hr]; [discriminate|right; eauto].
  - discriminate.
Qed.

Lemma quiet_fetch_with_recovery (phi : Event -> Prop) :
  phi EvGetNewTopics -> phi EvLogin -> phi EvPostToken ->
  quiet phi (fetch_with_recovery env).
Proof.
  intros Hf Hl Hp. apply quiet_bind; [apply quiet_get_new_topics; exact Hf|].
  intros [|t ts]; [|apply quiet_ret].
  apply quiet_bind; [apply quiet_login; assumption|].
  intros ok. apply quiet_if;
    [apply quiet_get_new_topics; exact Hf | apply quiet_ret].
Qed.

Lemma no_topic_fetch_events :
  no_topic EvGetNewTopics /\ no_topic EvLogin /\ no_topic EvPostToken.
Proof. repeat split. Qed.

(** What one turn of the loop does: it never raises, the mark does not
    decrease, and the topics it evaluates are an initial segment of the
    sorted candidates of the batch it fetched. *)
Lemma cycle_summary (m : Z) (s : State) :
  exists m' s' topics k d_pre d_loop,
    cycle lower format_message env m s = (Ok m', s') /\
    m <= m' /\
    trace s' = (trace s ++ d_pre ++ d_loop)%list /\
    Forall no_topic d_pre /\
    evaluated d_loop =
      map topic_id (take k (sort_by_id (newer_than m topics))) /\
    dispatched d_loop =
      map topic_id
          (List.filter check (take k (sort_by_id (newer_than m topics)))) /\
    (topics = [] \/
     exists n, topic_new env n = Response 200 (Some topics)) /\
    (forall l s1,
        fetch_with_recovery env (record (EvSleep INTERVAL) s) = (Ok l, s1) ->
        topics = l) /\
    (forall m'',
        fst (cycle_body lower format_message env m
               (record (EvSleep INTERVAL) s)) = Ok m'' ->
        m' = m'' /\
        take k (sort_by_id (newer_than m topics)) =
        sort_by_id (newer_than m topics)).
Proof.
  rewrite cycle_run, cycle_body_run.
  set (s0 := record (EvSleep INTERVAL) s).
  destruct no_topic_fetch_events as [Hn1 [Hn2 Hn3]].
  destruct (quiet_fetch_with_recovery no_topic Hn1 Hn2 Hn3 s0)
    as [df [Hdf Hqf]].
  assert (Forall no_topic ([EvSleep INTERVAL] ++ df)) as Hpre.
  { apply Forall_app; split; [|exact Hqf].
    constructor; [split; reflexivity | constructor]. }
  destruct (fetch_with_recovery env s0) as [[[|t ts]|e] s1] eqn:Hf;
    simpl in Hdf.
  - exists m, s1, [], 0%nat, ([EvSleep INTERVAL] ++ df)%list, [].
    split; [reflexivity|]. split; [lia|].
    split; [rewrite Hdf, app_nil_r, app_assoc; reflexivity|].
    split; [exact Hpre|]. split; [reflexivity|]. split; [reflexivity|].
    split; [left; reflexivity|].
    split; [intros l s1' Hl; congruence|].
    simpl. intros m'' Hm. split; [congruence | reflexivity].
  - set (C := sort_by_id (newer_than m (t :: ts))) in *.
    destruct (for_topics_events C m s1)
      as [dl [k [Hdl [Hev [Hdi [Hok _]]]]]].
    pose proof (for_topics_result C m s1) as Hres.
    assert (forall m1, fst (loop C m s1) = Ok m1 -> m <= m1) as Hmono.
    { intros m1 Hm1.
      destruct (fold_max_bounds (map topic_id C) m) as [Hb _].
      rewrite (Hres m1 Hm1). exact Hb. }
    assert (trace (snd (loop C m s1))
            = (trace s ++ ([EvSleep INTERVAL] ++ df) ++ dl)%list) as Htr.
    { rewrite Hdl, Hdf. rewrite <- !app_assoc. reflexivity. }
    assert (t :: ts = [] \/
            exists n, topic_new env n = Response 200 (Some (t :: ts)))
      as Hsrc by (eapply fetch_with_recovery_source; exact Hf).
    destruct (loop C m s1) as [[m1|e] s2]; simpl in *.
    + exists m1, s2, (t :: ts), k, ([EvSleep INTERVAL] ++ df)%list, dl.
      split; [reflexivity|]. split; [apply Hmono; reflexivity|].
      split; [exact Htr|]. split; [exact Hpre|].
      split; [exact Hev|]. split; [exact Hdi|]. split; [exact Hsrc|].
      split; [intros l s1' Hl; congruence|].
      intros m'' Hm. split; [congruence|]. apply Hok. eauto.
    + exists m, s2, (t :: ts), k, ([EvSleep INTERVAL] ++ df)%list, dl.
      split; [reflexivity|]. split; [lia|].
      split; [exact Htr|]. split; [exact Hpre|].
      split; [exact Hev|]. split; [exact Hdi|]. split; [exact Hsrc|].
      split; [intros l s1' Hl; congruence|].
      intros m'' Hm. discriminate.
  - exists m, s1, [], 0%nat, ([EvSleep INTERVAL] ++ df)%list, [].
    split; [reflexivity|]. split; [lia|].
    split; [rewrite Hdf, app_nil_r, app_assoc; reflexivity|].
    split; [exact Hpre|]. split; [reflexivity|]. split; [reflexivity|].
    split; [left; reflexivity|].
    split; [intros l s1' Hl; discriminate|].
    simpl. intros m'' Hm. discriminate.
Qed.

Lemma cycle_total (m : Z) (s : State) :
  exists m' s', cycle lower format_message env m s = (Ok m', s') /\ m <= m'.
Proof.
  destruct (cycle_summary m s) as [m' [s' [_ [_ [_ [_ [H [Hle _]]]]]]]].
  eauto.
Qed.

Lemma poll_loop_total (n : nat) (m : Z) (s : State) :
  exists m_n s_n,
    poll_loop lower format_message env n m s = (Ok (Polling m_n), s_n) /\
    m <= m_n.
Proof.
  revert m s; induction n as [|n IH]; intros m s; simpl.
  - exists m, s. split; [reflexivity | lia].
  - destruct (cycle_total m s) as [m1 [s1 [Hc Hle]]].
    rewrite (bind_ok _ _ _ _ _ Hc).
    destruct (IH m1 s1) as [m_n [s_n [Hp Hle']]].
    exists m_n, s_n. split; [exact Hp | lia].
Qed.

(** The loop after [n + 1] turns is the loop after [n] turns followed by
    one more cycle. *)
Lemma poll_loop_snoc (n : nat) (m : Z) (s : State) (m_n : Z) (s_n : State) :
  poll_loop lower format_message env n m s = (Ok (Polling m_n), s_n) ->
  poll_loop lower format_message env (S n) m s =
  bind (cycle lower format_message env m_n) (fun m' => ret (Polling m')) s_n.
Proof.
  revert m s; induction n as [|n IH]; intros m s Hn.
  - simpl in Hn. unfold ret in Hn. injection Hn as -> ->. reflexivity.
  - change (poll_loop lower format_message env (S n) m s)
      with (bind (cycle lower format_message env m)
                 (poll_loop lower format_message env n) s) in Hn.
    change (poll_loop lower format_message env (S (S n)) m s)
      with (bind (cycle lower format_message env m)
                 (poll_loop lower format_message env (S n)) s).
    destruct (cycle_total m s) as [m1 [s1 [Hc _]]].
    rewrite (bind_ok _ _ _ _ _ Hc) in Hn.
    rewrite (bind_ok _ _ _ _ _ Hc).
    apply IH. exact Hn.
Qed.

End Cycle.

(** ** Order is kept by initial segments, selections and projections *)




Lemma take_In {A} (k : nat) (l : list A) (x : A) :
  In x (take k l) -> In x l.
Proof.
  intros H. rewrite <- (take_drop k l). apply in_or_app. left. exact H.
Qed.

(** ** The high-water-mark *)

(** C1: the high-water-mark never decreases.  Every cycle, whatever it
    fetched and whether or not a rule matched, ends normally with a mark at
    least the one it started from; so along the loop the mark after [n + 1]
    cycles is at least the mark after [n] cycles, which is at least the
    baseline; and the mark [main] holds only grows with the number of cycles
    it has run. *)
Theorem high_water_mark_monotone
    (lower : string -> string)
    (format_message : Topic -> string -> string -> string) (env : Env) :
  (forall m s, exists m' s',
      cycle lower format_message env m s = (Ok m', s') /\ m <= m') /\
  (forall n m s, exists m_n s_n m' s',
      poll_loop lower format_message env n m s = (Ok (Polling m_n), s_n) /\
      cycle lower format_message env m_n s_n = (Ok m', s') /\
      poll_loop lower format_message env (S n) m s = (Ok (Polling m'), s') /\
      m <= m_n /\ m_n <= m') /\
  (forall n s,
      match fst (main lower format_message env n s),
            fst (main lower format_message env (S n) s) with
      | Ok (Polling a), Ok (Polling b) => a <= b
      | Ok Returned, Ok Returned => True
      | _, _ => False
      end).
Proof.
  assert (forall n m s, exists m_n s_n m' s',
      poll_loop lower format_message env n m s = (Ok (Polling m_n), s_n) /\
      cycle lower format_message env m_n s_n = (Ok m', s') /\
      poll_loop lower format_message env (S n) m s = (Ok (Polling m'), s') /\
      m <= m_n /\ m_n <= m') as Hloop.
  { intros n m s.
    destruct (poll_loop_total lower format_message env n m s)
      as [m_n [s_n [Hn Hle]]].
    destruct (cycle_total lower format_message env m_n s_n)
      as [m' [s' [Hc Hle']]].
    exists m_n, s_n, m', s'. repeat split; auto.
    rewrite (poll_loop_snoc _ _ _ _ _ _ _ _ Hn).
    rewrite (bind_ok _ _ _ _ _ Hc). reflexivity. }
  split; [apply cycle_total|]. split; [exact Hloop|].
  intros n s. unfold main.
  destruct (login_total env s) as [ok [s1 Hl]].
  rewrite !(bind_ok _ _ _ _ _ Hl).
  destruct ok; [|exact I]. cbn [negb].
  set (b := try_except (bind (baseline env) (fun m => ret (Some m)))
                       (fun _ => ret None)).
  assert ((exists m0 s2, b s1 = (Ok (Some m0), s2)) \/
          (exists s2, b s1 = (Ok None, s2))) as Hb.
  { subst b. unfold try_except, bind, ret.
    destruct (baseline env s1) as [[m0|e] s2]; eauto. }
  destruct Hb as [[m0 [s2 Hb]]|[s2 Hb]]; rewrite !(bind_ok _ _ _ _ _ Hb).
  - destruct (Hloop n m0 s2) as [m_n [s_n [m' [s' [Hn [_ [Hs [_ Hle]]]]]]]].
    rewrite Hn, Hs. exact Hle.
  - exact I.
Qed.

(** ** Candidates *)

Lemma new_events_cycle (s s' : State) (d_pre d_loop : list Event) :
  trace s' = (trace s ++ d_pre ++ d_loop)%list ->
  Forall no_topic d_pre ->
  evaluated (new_events s s') = evaluated d_loop /\
  dispatched (new_events s s') = dispatched d_loop.
Proof.
  intros Ht Hq. rewrite (new_events_app s s' _ Ht).
  rewrite evaluated_app, dispatched_app.
  destruct (no_topic_evaluated d_pre Hq) as [-> ->]. split; reflexivity.
Qed.

(** C2: the candidates of a cycle are exactly the fetched topics whose id is
    strictly greater than the mark held before the cycle (sorting keeps the
    same topics).  The loop of the cycle runs over exactly these candidates:
    every id it evaluates or dispatches is the id of a fetched topic above
    the mark, the evaluated ids are an initial segment of the candidates'
    ids, and a cycle that completes evaluates every fetched topic above the
    mark.  No topic with an id at or below the mark is evaluated or
    dispatched in the cycle. *)
Theorem candidates_exactly_newer
    (lower : string -> string)
    (format_message : Topic -> string -> string -> string) (env : Env)
    (max_id : Z) :
  (forall topics t,
      In t (newer_than max_id topics) <-> In t topics /\ max_id < topic_id t) /\
  (forall topics t,
      In t (sort_by_id (newer_than max_id topics)) <->
      In t topics /\ max_id < topic_id t) /\
  (forall s x,
      let d := new_events s (snd (cycle lower format_message env max_id s)) in
      In x (evaluated d) \/ In x (dispatched d) -> max_id < x) /\
  (forall s s1 topics,
      fetch_with_recovery env (record (EvSleep INTERVAL) s) = (Ok topics, s1) ->
      let selected := sort_by_id (newer_than max_id topics) in
      let d := new_events s (snd (cycle lower format_message env max_id s)) in
      cycle_body lower format_message env max_id (record (EvSleep INTERVAL) s)
      = for_topics lower format_message env selected max_id s1 /\
      (forall x,
          In x (evaluated d) \/ In x (dispatched d) ->
          exists t, In t topics /\ max_id < topic_id t /\ topic_id t = x) /\
      (exists k,
          evaluated d = map topic_id (take k selected) /\
          dispatched d
          = map topic_id
                (List.filter (check_topic_condition lower) (take k selected))) /\
      (forall m',
          fst (cycle_body lower format_message env max_id
                 (record (EvSleep INTERVAL) s)) = Ok m' ->
          evaluated d = map topic_id selected /\
          forall t, In t topics -> max_id < topic_id t ->
                    In (topic_id t) (evaluated d))).
Proof.
  assert (forall s,
             exists topics k,
               let d := new_events s
                          (snd (cycle lower format_message env max_id s)) in
               let selected := sort_by_id (newer_than max_id topics) in
               evaluated d = map topic_id (take k selected) /\
               dispatched d
               = map topic_id
                     (List.filter (check_topic_condition lower)
                                  (take k selected)) /\
               (forall l s1,
                   fetch_with_recovery env (record (EvSleep INTERVAL) s)
                   = (Ok l, s1) -> topics = l) /\
               (forall m',
                   fst (cycle_body lower format_message env max_id
                          (record (EvSleep INTERVAL) s)) = Ok m' ->
                   take k selected = selected)) as Hsum.
  { intros s.
    destruct (cycle_summary lower format_message env max_id s)
      as [m' [s' [topics [k [d_pre [d_loop
           [Hc [_ [Ht [Hq [Hev [Hdi [_ [Hsame Hdone]]]]]]]]]]]]]].
    exists topics, k. cbv zeta. rewrite Hc. simpl snd.
    destruct (new_events_cycle s s' d_pre d_loop Ht Hq) as [He Hd].
    rewrite He, Hd. split; [exact Hev|]. split; [exact Hdi|].
    split; [exact Hsame|]. intros m'' Hm. apply (Hdone m'' Hm). }
  assert (forall topics k x,
             In x (map topic_id (take k (sort_by_id (newer_than max_id topics))))
             \/ In x (map topic_id
                        (List.filter (check_topic_condition lower)
                           (take k (sort_by_id (newer_than max_id topics))))) ->
             exists t, In t topics /\ max_id < topic_id t /\ topic_id t = x)
    as Hmem.
  { intros topics k x Hx.
    assert (exists t, topic_id t = x /\
                      In t (sort_by_id (newer_than max_id topics)))
      as [t [Hid Hin]].
    { destruct Hx as [Hx|Hx]; apply in_map_iff in Hx as [t [Hid Hin]];
        exists t; (split; [exact Hid|]).
      - eapply take_In. exact Hin.
      - apply List.filter_In in Hin as [Hin _]. eapply take_In. exact Hin. }
    apply sort_by_id_In, newer_than_In in Hin as [Hin Hgt].
    exists t. auto. }
  split; [intros; apply newer_than_In|].
  split; [intros; rewrite sort_by_id_In; apply newer_than_In|].
  split.
  - intros s x d Hx. subst d.
    destruct (Hsum s) as [topics [k [Hev [Hdi _]]]].
    cbv zeta in Hev, Hdi. rewrite Hev, Hdi in Hx.
    destruct (Hmem topics k x Hx) as [t [_ [Hgt <-]]]. exact Hgt.
  - intros s s1 topics Hf selected d. subst d.
    destruct (Hsum s) as [topics' [k [Hev [Hdi [Hsame Hdone]]]]].
    cbv zeta in Hev, Hdi, Hdone.
    rewrite (Hsame topics s1 Hf) in Hev, Hdi, Hdone.
    fold selected in Hev, Hdi, Hdone.
    split.
    { rewrite cycle_body_run, Hf. subst selected.
      destruct topics; reflexivity. }
    split.
    { intros x Hx. rewrite Hev, Hdi in Hx. apply (Hmem topics k x Hx). }
    split; [exists k; split; assumption|].
    intros m' Hm. rewrite Hev, (Hdone m' Hm).
    split; [reflexivity|].
    intros t Ht Hgt. apply in_map. subst selected.
    apply sort_by_id_In, newer_than_In. auto.
Qed.

Lemma candidates_exactly_newer_witness :
  let d := new_events after_startup
             (snd (cycle ascii_lower sample_format
                     (scenario_env next_batch) 103 after_startup)) in
  evaluated d = [104; 105] /\
  In 104 (evaluated d) /\
  103 < 104.
Proof.
  intros d.
  destruct (candidates_exactly_newer ascii_lower sample_format
              (scenario_env next_batch) 103) as [_ [_ [Habove Hcycle]]].
  destruct (Hcycle after_startup
              (advance EvGetNewTopics
                 (record (EvSleep INTERVAL) after_startup))
              next_batch eq_refl) as [_ [_ [_ Hall]]].
  destruct (Hall 105) as [Hev Hin]; [vm_compute; reflexivity|].
  assert (In 104 (evaluated d)) as H104.
  { apply (Hin (mk_topic 104 459 "React developer wanted"));
      [right; right; left; reflexivity | reflexivity]. }
  split; [exact Hev|]. split; [exact H104|].
  apply (Habove after_startup 104). left. exact H104.
Defined.






(** ** Advancing the mark *)

Lemma baseline_run (env : Env) (s : State) :
  baseline env s =
  match getter_result (topic_new env (clock s)) with
  | Ok (t :: ts) =>
      (Ok (fold_left Z.max (map topic_id ts) (topic_id t)),
       advance EvGetNewTopics s)
  | Ok [] => (Ok 0, advance EvGetNewTopics s)
  | Raise e => (Raise e, advance EvGetNewTopics s)
  end.
Proof.
  unfold baseline, bind. rewrite get_new_topics_run.
  destruct (getter_result (topic_new env (clock s))) as [[|t ts]|e];
    reflexivity.
Qed.

(** C5: a cycle that fetched a non-empty batch and completed leaves the mark
    at the greatest id of the batch when some id exceeds the previous mark,
    and at the previous mark otherwise; the rule plays no part in it.  In the
    scenario, startup ids 101, 102, 103 give the baseline 103, and a cycle
    fetching ids 102, 103, 104, 105 has the candidates 104, 105 and ends
    with the mark 105. *)
Theorem mark_advances_to_newest
    (lower : string -> string)
    (format_message : Topic -> string -> string -> string) (env : Env) :
  (forall max_id s topics s1 m' s',
      fetch_with_recovery env (record (EvSleep INTERVAL) s) = (Ok topics, s1) ->
      topics <> [] ->
      cycle_body lower format_message env max_id
                 (record (EvSleep INTERVAL) s) = (Ok m', s') ->
      cycle lower format_message env max_id s = (Ok m', s') /\
      max_id <= m' /\
      (forall t, In t topics -> topic_id t <= m') /\
      ((exists t, In t topics /\ max_id < topic_id t) ->
       exists t, In t topics /\ topic_id t = m') /\
      ((forall t, In t topics -> topic_id t <= max_id) -> m' = max_id)) /\
  (forall s s1 topics,
      get_new_topics env s = (Ok topics, s1) ->
      map topic_id topics = [101; 102; 103] ->
      baseline env s = (Ok 103, s1)) /\
  (forall topics,
      map topic_id topics = [102; 103; 104; 105] ->
      map topic_id (sort_by_id (newer_than 103 topics)) = [104; 105] /\
      forall s s1 m' s',
        fetch_with_recovery env (record (EvSleep INTERVAL) s)
        = (Ok topics, s1) ->
        cycle_body lower format_message env 103
                   (record (EvSleep INTERVAL) s) = (Ok m', s') ->
        cycle lower format_message env 103 s = (Ok 105, s')).
Proof.
  assert (forall max_id s topics s1 m' s',
      fetch_with_recovery env (record (EvSleep INTERVAL) s) = (Ok topics, s1) ->
      topics <> [] ->
      cycle_body lower format_message env max_id
                 (record (EvSleep INTERVAL) s) = (Ok m', s') ->
      cycle lower format_message env max_id s = (Ok m', s') /\
      m' = fold_left Z.max
             (map topic_id (sort_by_id (newer_than max_id topics))) max_id)
    as Hstep.
  { intros max_id s topics s1 m' s' Hf Hne Hb.
    split; [rewrite cycle_run, Hb; reflexivity|].
    rewrite cycle_body_run, Hf in Hb.
    destruct topics as [|t ts]; [contradiction|].
    apply (for_topics_result lower format_message env _ _ s1).
    rewrite Hb. reflexivity. }
  split; [|split].
  - intros max_id s topics s1 m' s' Hf Hne Hb.
    destruct (Hstep max_id s topics s1 m' s' Hf Hne Hb) as [Hc Hm].
    split; [exact Hc|].
    destruct (fold_max_bounds
                (map topic_id (sort_by_id (newer_than max_id topics))) max_id)
      as [Hlow [Hup Hin]].
    rewrite <- Hm in Hlow, Hup, Hin.
    assert (forall t, In t topics -> topic_id t <= m') as Hall.
    { intros t Ht. destruct (Z.lt_ge_cases max_id (topic_id t)) as [Hgt|Hle];
        [|lia].
      apply Hup. apply in_map. apply sort_by_id_In, newer_than_In. auto. }
    assert (m' = max_id \/
            exists t, In t topics /\ topic_id t = m' /\ max_id < m') as Hcase.
    { destruct Hin as [Hin|Hin]; [left; exact Hin|right].
      apply in_map_iff in Hin as [t [Hid Hin]].
      apply sort_by_id_In, newer_than_In in Hin as [Hin Hgt].
      exists t. repeat split; auto. lia. }
    split; [exact Hlow|]. split; [exact Hall|]. split.
    + intros [t [Ht Hgt]]. destruct Hcase as [He|[u [Hu [Hid _]]]]; [|eauto].
      specialize (Hall t Ht). lia.
    + intros Hold. destruct Hcase as [He|[u [Hu [Hid Hgt]]]]; [exact He|].
      specialize (Hold u Hu). lia.
  - intros s s1 topics Hg Hids. rewrite baseline_run.
    rewrite get_new_topics_run in Hg. injection Hg as Hg <-. rewrite Hg.
    destruct topics as [|a [|b [|c [|? ?]]]]; try discriminate.
    simpl in Hids. injection Hids as Ha Hb Hc.
    simpl. rewrite Ha, Hb, Hc. reflexivity.
  - intros topics Hids.
    assert (map topic_id (sort_by_id (newer_than 103 topics)) = [104; 105])
      as Hcand.
    { destruct topics as [|a [|b [|c [|d [|? ?]]]]]; try discriminate.
      simpl in Hids. injection Hids as Ha Hb Hc Hd.
      unfold newer_than. simpl. rewrite Ha, Hb, Hc, Hd. simpl.
      rewrite Hc, Hd. simpl. rewrite Hc, Hd. reflexivity. }
    split; [exact Hcand|].
    intros s s1 m' s' Hf Hb.
    assert (topics <> []) as Hne by (intros ->; discriminate).
    destruct (Hstep 103 s topics s1 m' s' Hf Hne Hb) as [Hc Hm].
    rewrite Hcand in Hm. rewrite Hc, Hm. reflexivity.
Qed.

Lemma mark_advances_to_newest_witness :
  let env := scenario_env next_batch in
  let s0 := {| client := sample_client (Some "id"); clock := 1; trace := [] |} in
  baseline env s0 = (Ok 103, advance EvGetNewTopics s0) /\
  map topic_id (sort_by_id (newer_than 103 next_batch)) = [104; 105] /\
  fst (cycle ascii_lower sample_format env 103 after_startup) = Ok 105.
Proof.
  intros env s0.
  destruct (mark_advances_to_newest ascii_lower sample_format env)
    as [_ [Hbase Hnext]].
  split.
  { apply (Hbase s0 (advance EvGetNewTopics s0) startup_batch);
      reflexivity. }
  destruct (Hnext next_batch eq_refl) as [Hcand Hrun].
  split; [exact Hcand|].
  set (r := cycle_body ascii_lower sample_format env 103
              (record (EvSleep INTERVAL) after_startup)).
  assert (r = (Ok 105, snd r)) as Hr by (vm_compute; reflexivity).
  rewrite (Hrun after_startup
             (advance EvGetNewTopics (record (EvSleep INTERVAL) after_startup))
             105 (snd r)); [reflexivity | vm_compute; reflexivity | exact Hr].
Defined.

(** ** Recovery after an empty fetch *)

Lemma count_none (p : Event -> bool) (d : list Event) :
  Forall (fun e => p e = false) d -> count p d = 0%nat.
Proof.
  induction 1 as [|e d He _ IH]; [reflexivity|].
  unfold count in *. simpl. rewrite He. exact IH.
Qed.

(** A call of [login] is one login attempt and no fetch or sleep; the
    request counter does not go back. *)
Lemma login_trace (env : Env) (s : State) :
  exists d,
    trace (snd (login env s)) = (trace s ++ d)%list /\
    count is_login d = 1%nat /\ count is_fetch d = 0%nat /\
    count is_sleep d = 0%nat /\
    (clock s <= clock (snd (login env s)))%nat.
Proof.
  destruct (login_cases env s)
    as [[H _]|[[H _]|[td [_ [_ [_ H]]]]]]; rewrite H; simpl.
  - exists [EvLogin]. repeat split; auto.
  - exists [EvLogin; EvPostToken]. rewrite <- app_assoc.
    repeat split; auto.
  - exists [EvLogin; EvPostToken]. rewrite <- app_assoc.
    repeat split; auto.
Qed.

Section Recovery.

Variable lower : string -> string.
Variable format_message : Topic -> string -> string -> string.
Variable env : Env.

(** The cycle whose first fetch came back empty. *)
Lemma cycle_empty_fetch (m : Z) (s s1 s2 : State) (ok : bool) :
  get_new_topics env (record (EvSleep INTERVAL) s) = (Ok [], s1) ->
  login env s1 = (Ok ok, s2) ->
  let r := cycle lower format_message env m s in
  let d := new_events s (snd r) in
  count is_login d = 1%nat /\
  count is_fetch d = (if ok then 2%nat else 1%nat) /\
  (exists m', fst r = Ok m') /\
  (ok = false -> r = (Ok m, s2)) /\
  (ok = true -> fst (get_new_topics env s2) = Ok [] ->
   r = (Ok m, advance EvGetNewTopics s2)).
Proof.
  intros Hg Hl r d. subst d r.
  set (s0 := record (EvSleep INTERVAL) s) in *.
  rewrite get_new_topics_run in Hg. injection Hg as Hg Hs1.
  destruct (login_trace env s1) as [dl [Htl [Hcl [Hcf [_ _]]]]].
  rewrite Hl in Htl. simpl in Htl.
  assert (trace s1 = (trace s ++ [EvSleep INTERVAL; EvGetNewTopics])%list)
    as Ht1.
  { subst s1 s0. simpl. rewrite <- app_assoc. reflexivity. }
  rewrite cycle_run, cycle_body_run, fetch_with_recovery_run.
  fold s0. change (clock s0) with (clock s).
  change (clock s0) with (clock s) in Hg.
  rewrite Hg, Hs1, Hl.
  destruct ok.
  - rewrite get_new_topics_run.
    set (s3 := advance EvGetNewTopics s2).
    assert (trace s3 = (trace s ++ [EvSleep INTERVAL; EvGetNewTopics]
                          ++ dl ++ [EvGetNewTopics])%list) as Ht3.
    { subst s3. simpl. rewrite Htl, Ht1, <- !app_assoc. reflexivity. }
    assert (count is_login ([EvSleep INTERVAL; EvGetNewTopics]
                              ++ dl ++ [EvGetNewTopics]) = 1%nat) as Hc1.
    { rewrite !count_app, Hcl. reflexivity. }
    assert (count is_fetch ([EvSleep INTERVAL; EvGetNewTopics]
                              ++ dl ++ [EvGetNewTopics]) = 2%nat) as Hc2.
    { rewrite !count_app, Hcf. reflexivity. }
    destruct (getter_result (topic_new env (clock s2))) as [[|t ts]|e];
      cbv beta iota; cbn [fst snd].
    + rewrite (new_events_app s s3 _ Ht3).
      repeat split; eauto; intros; discriminate.
    + destruct (for_topics_events lower format_message env
                  (sort_by_id (newer_than m (t :: ts))) m s3)
        as [dt [k [Hdt [_ [_ [_ Hq]]]]]].
      assert (count is_login dt = 0%nat) as Hz1.
      { apply count_none. eapply List.Forall_impl; [|exact Hq].
        intros e He. apply He. }
      assert (count is_fetch dt = 0%nat) as Hz2.
      { apply count_none. eapply List.Forall_impl; [|exact Hq].
        intros e He. apply He. }
      rewrite Ht3, <- app_assoc in Hdt.
      destruct (for_topics lower format_message env
                  (sort_by_id (newer_than m (t :: ts))) m s3)
        as [[m1|e1] s4]; cbn [fst snd] in *;
        rewrite (new_events_app s s4 _ Hdt);
        rewrite !app_assoc, count_app, <- !app_assoc, Hc1, Hz1;
        rewrite !app_assoc, (count_app is_fetch), <- !app_assoc, Hc2, Hz2;
        (split; [reflexivity|]); (split; [reflexivity|]);
        (split; [eauto|]); (split; intros; discriminate).
    + rewrite (new_events_app s s3 _ Ht3).
      repeat split; eauto; intros; discriminate.
  - simpl.
    rewrite (new_events_app s s2 ([EvSleep INTERVAL; EvGetNewTopics] ++ dl))
      by (rewrite Htl, Ht1, <- app_assoc; reflexivity).
    rewrite !count_app, Hcl, Hcf.
    repeat split; eauto. intros; discriminate.
Qed.

End Recovery.

(** C4: when the fetch of a cycle returns the empty list, [login] is called
    exactly once; the newest-topics request is issued once more, so twice in
    the cycle, exactly when that login succeeded and only once otherwise;
    the cycle never raises; and when the login failed or the second fetch is
    empty as well, the cycle ends there with the mark unchanged. *)
Theorem empty_fetch_recovery
    (lower : string -> string)
    (format_message : Topic -> string -> string -> string) (env : Env)
    (max_id : Z) (s s1 s2 : State) (ok : bool) :
  get_new_topics env (record (EvSleep INTERVAL) s) = (Ok [], s1) ->
  login env s1 = (Ok ok, s2) ->
  let r := cycle lower format_message env max_id s in
  let d := new_events s (snd r) in
  count is_login d = 1%nat /\
  count is_fetch d = (if ok then 2%nat else 1%nat) /\
  (exists m', fst r = Ok m') /\
  (ok = false -> r = (Ok max_id, s2)) /\
  (ok = true -> fst (get_new_topics env s2) = Ok [] ->
   r = (Ok max_id, advance EvGetNewTopics s2)).
Proof.
  intros Hg Hl. exact (cycle_empty_fetch lower format_message env
                         max_id s s1 s2 ok Hg Hl).
Qed.

Lemma empty_fetch_recovery_witness :
  let env := scenario_env [] in
  let s1 := advance EvGetNewTopics (record (EvSleep INTERVAL) after_startup) in
  let s2 := snd (login env s1) in
  let r := cycle ascii_lower sample_format env 103 after_startup in
  login env s1 = (Ok true, s2) /\
  count is_login (new_events after_startup (snd r)) = 1%nat /\
  count is_fetch (new_events after_startup (snd r)) = 2%nat /\
  r = (Ok 103, advance EvGetNewTopics s2).
Proof.
  intros env s1 s2 r.
  assert (get_new_topics env (record (EvSleep INTERVAL) after_startup)
          = (Ok [], s1)) as Hg by reflexivity.
  assert (login env s1 = (Ok true, s2)) as Hl by reflexivity.
  destruct (empty_fetch_recovery ascii_lower sample_format env 103
              after_startup s1 s2 true Hg Hl) as [H1 [H2 [_ [_ H5]]]].
  split; [exact Hl|]. split; [exact H1|]. split; [exact H2|].
  apply H5; reflexivity.
Defined.

(** ** A failed fetch read as an empty list *)

Section OtherAnswer.

Variable lower : string -> string.
Variable format_message : Topic -> string -> string -> string.
Variable env : Env.
Variable k : nat.
Variable r : HttpResult (list Topic).

Lemma for_topics_other_answer (l : list Topic) (m : Z) (s : State) :
  for_topics lower format_message (with_topic_new env k r) l m s =
  for_topics lower format_message env l m s.
Proof.
  revert m s; induction l as [|t l IH]; intros m s; [reflexivity|].
  simpl. unfold bind.
  change (process_topic lower format_message (with_topic_new env k r) t m s)
    with (process_topic lower format_message env t m s).
  destruct (process_topic lower format_message env t m s) as [[m1|e] s1];
    [apply IH | reflexivity].
Qed.

Lemma get_new_topics_other_answer (s : State) :
  clock s <> k ->
  get_new_topics (with_topic_new env k r) s = get_new_topics env s.
Proof.
  intros Hne. rewrite !get_new_topics_run. simpl.
  destruct (Nat.eqb_spec (clock s) k); [contradiction | reflexivity].
Qed.

End OtherAnswer.

(** C10: a newest-topics response with a status other than 200 makes
    [get_new_topics] return the empty list, without raising.  The cycle that
    receives it is, in result, state and trace, the cycle that would have
    received a 200 response with an empty array, and it goes through the
    recovery path: exactly one login attempt. *)
Theorem non_200_fetch_is_an_empty_list
    (lower : string -> string)
    (format_message : Topic -> string -> string -> string) (env : Env)
    (max_id : Z) (s : State) (st : Z) (j : option (list Topic)) :
  st <> 200 ->
  topic_new env (clock s) = Response st j ->
  get_new_topics env s = (Ok [], advance EvGetNewTopics s) /\
  cycle lower format_message env max_id s =
  cycle lower format_message
        (with_topic_new env (clock s) (Response 200 (Some []))) max_id s /\
  count is_login
        (new_events s (snd (cycle lower format_message env max_id s))) = 1%nat.
Proof.
  intros Hst Hresp.
  assert (getter_result (topic_new env (clock s)) = Ok []) as Hg.
  { rewrite Hresp. simpl. destruct (Z.eqb_spec st 200); congruence. }
  split; [rewrite get_new_topics_run, Hg; reflexivity|].
  set (env' := with_topic_new env (clock s) (Response 200 (Some []))).
  set (s0 := record (EvSleep INTERVAL) s).
  set (s1 := advance EvGetNewTopics s0).
  destruct (login_total env s1) as [ok [s2 Hl]].
  split.
  - rewrite !cycle_run, !cycle_body_run, !fetch_with_recovery_run.
    fold s0. change (clock s0) with (clock s). rewrite Hg.
    assert (getter_result (topic_new env' (clock s)) = Ok []) as Hg'.
    { simpl. rewrite Nat.eqb_refl. reflexivity. }
    rewrite Hg'. fold s1.
    change (login env' s1) with (login env s1). rewrite Hl.
    destruct ok; [|reflexivity].
    assert (clock s2 <> clock s) as Hne.
    { destruct (login_trace env s1) as [d [_ [_ [_ [_ Hc]]]]].
      rewrite Hl in Hc. simpl in Hc. lia. }
    unfold env'. rewrite (get_new_topics_other_answer _ _ _ _ Hne).
    destruct (get_new_topics env s2) as [[[|t ts]|e] s3];
      [reflexivity | rewrite for_topics_other_answer | ]; reflexivity.
  - assert (get_new_topics env s0 = (Ok [], s1)) as Hf
        by (rewrite get_new_topics_run; fold s1;
            change (clock s0) with (clock s); rewrite Hg; reflexivity).
    apply (cycle_empty_fetch lower format_message env max_id s s1 s2 ok Hf Hl).
Qed.

Lemma non_200_fetch_is_an_empty_list_witness :
  let env :=
    sample_env (fun _ => Response 200 (Some sample_tokens))
               (fun n => if Nat.eqb n 2 then Response 401 None
                         else Response 200 (Some next_batch)) in
  get_new_topics env after_startup
  = (Ok [], advance EvGetNewTopics after_startup) /\
  fst (cycle ascii_lower sample_format env 103 after_startup) = Ok 105 /\
  count is_login
        (new_events after_startup
           (snd (cycle ascii_lower sample_format env 103 after_startup)))
  = 1%nat.
Proof.
  intros env.
  destruct (non_200_fetch_is_an_empty_list ascii_lower sample_format env 103
              after_startup 401 None) as [H1 [_ H3]];
    [lia | reflexivity |].
  split; [exact H1|]. split; [vm_compute; reflexivity | exact H3].
Defined.

(** ** Start-up *)

(** C3: after a successful initial login, a baseline fetch that
    raises -- the request fails to connect, or a 200 response has no
    decodable body -- makes [main] return before the first sleep, whatever
    the number of turns it is allowed.  A response with another status is
    not such a failure: [get_new_topics] turns it into the empty list and
    [main] enters the polling loop with the baseline 0. *)
Theorem initial_fetch_exception_aborts
    (lower : string -> string)
    (format_message : Topic -> string -> string -> string) (env : Env)
    (fuel : nat) (s s1 : State) :
  login env s = (Ok true, s1) ->
  (topic_new env (clock s1) = ConnectionError \/
   topic_new env (clock s1) = Response 200 None ->
   main lower format_message env fuel s
   = (Ok Returned, advance EvGetNewTopics s1) /\
   count is_sleep
         (new_events s (snd (main lower format_message env fuel s))) = 0%nat) /\
  (forall st j,
      topic_new env (clock s1) = Response st j -> st <> 200 ->
      main lower format_message env fuel s
      = poll_loop lower format_message env fuel 0 (advance EvGetNewTopics s1)).
Proof.
  intros Hl.
  assert (forall o,
             try_except (bind (baseline env) (fun m => ret (Some m)))
                        (fun _ => ret None) s1
             = (o, advance EvGetNewTopics s1) ->
             main lower format_message env fuel s
             = match o with
               | Ok (Some m) =>
                   poll_loop lower format_message env fuel m
                             (advance EvGetNewTopics s1)
               | Ok None => (Ok Returned, advance EvGetNewTopics s1)
               | Raise e => (Raise e, advance EvGetNewTopics s1)
               end) as Hmain.
  { intros o Ho. unfold main. rewrite (bind_ok _ _ _ _ _ Hl). cbn [negb].
    unfold bind at 1. rewrite Ho. destruct o as [[m|]|e]; reflexivity. }
  split.
  - intros Hraise.
    assert (exists e, getter_result (topic_new env (clock s1)) = Raise e)
      as [e He].
    { destruct Hraise as [-> | ->]; simpl; eauto. }
    assert (main lower format_message env fuel s
            = (Ok Returned, advance EvGetNewTopics s1)) as Hm.
    { rewrite (Hmain (Ok None)); [reflexivity|].
      unfold try_except, bind. rewrite baseline_run, He. reflexivity. }
    split; [exact Hm|]. rewrite Hm. simpl snd.
    destruct (login_trace env s) as [d [Ht [_ [_ [Hs _]]]]].
    rewrite Hl in Ht. simpl in Ht.
    rewrite (new_events_app s (advance EvGetNewTopics s1)
               (d ++ [EvGetNewTopics])).
    + rewrite count_app, Hs. reflexivity.
    + simpl. rewrite Ht, <- app_assoc. reflexivity.
  - intros st j Hresp Hst.
    rewrite (Hmain (Ok (Some 0))); [reflexivity|].
    unfold try_except, bind. rewrite baseline_run, Hresp. simpl.
    destruct (Z.eqb_spec st 200); [contradiction | reflexivity].
Qed.

Lemma initial_fetch_exception_aborts_witness :
  let env := sample_env (fun _ => Response 200 (Some sample_tokens))
                        (fun _ => ConnectionError) in
  let s := start (sample_client (Some "id")) in
  let s1 := snd (login env s) in
  login env s = (Ok true, s1) /\
  main ascii_lower sample_format env 5 s
  = (Ok Returned, advance EvGetNewTopics s1).
Proof.
  intros env s s1.
  assert (login env s = (Ok true, s1)) as Hl by reflexivity.
  split; [exact Hl|].
  destruct (initial_fetch_exception_aborts ascii_lower sample_format env 5
              s s1 Hl) as [H _].
  apply H. left. reflexivity.
Defined.

(** C3, non-200 status: not every failed baseline fetch stops [main].  A
    fetch answered with status 500 is a failed fetch, yet [main] does not
    return; it starts polling from the baseline 0. *)
Lemma initial_fetch_non_200_counterexample :
  ~ (forall (lower : string -> string)
            (format_message : Topic -> string -> string -> string)
            (env : Env) (fuel : nat) (s s1 : State),
        login env s = (Ok true, s1) ->
        request_failed (topic_new env (clock s1)) ->
        fst (main lower format_message env fuel s) = Ok Returned).
Proof.
  intros H.
  set (env := sample_env (fun _ => Response 200 (Some sample_tokens))
                         (fun _ => Response 500 None)).
  set (s := start (sample_client (Some "id"))).
  specialize (H ascii_lower sample_format env 1%nat s (snd (login env s))).
  assert (fst (main ascii_lower sample_format env 1 s) = Ok (Polling 0))
    as Hrun by (vm_compute; reflexivity).
  rewrite Hrun in H.
  assert (Ok (Polling 0) = Ok Returned) as Habs.
  { apply H; [reflexivity|]. simpl. left. lia. }
  discriminate.
Qed.

(** * Further properties of the code *)

(** ** login, the successful path *)

(** X1: [login] returns true exactly when both client credentials are set
    and the token endpoint answers 200 with a decodable body.  It then holds
    the tokens of that answer ([None] for a key the answer lacks), the
    [Authorization] header built from the access token, and has made exactly
    one request; credentials and board mapping are untouched. *)
Theorem login_success_stores_tokens (env : Env) (s : State) :
  (fst (login env s) = Ok true <->
   Py.truthy (client_id (client s)) = true /\
   Py.truthy (client_secret (client s)) = true /\
   exists td, connect_token env (clock s) = Response 200 (Some td)) /\
  (forall td,
      Py.truthy (client_id (client s)) = true ->
      Py.truthy (client_secret (client s)) = true ->
      connect_token env (clock s) = Response 200 (Some td) ->
      let s' := snd (login env s) in
      access_token (client s') = token_access td /\
      refresh_token (client s') = token_refresh td /\
      authorization (client s')
      = Some ("Bearer " ++ Py.fmt_str (token_access td))%string /\
      client_id (client s') = client_id (client s) /\
      client_secret (client s') = client_secret (client s) /\
      board_map (client s') = board_map (client s) /\
      clock s' = S (clock s) /\
      trace s' = (trace s ++ [EvLogin; EvPostToken])%list).
Proof.
  destruct (login_cases env s)
    as [[H Hc]|[[H [Hid [Hsec Hr]]]|[td [Hr [Hid [Hsec H]]]]]].
  - split.
    + rewrite H. simpl. split; [discriminate|].
      intros [Hi [Hs _]]. destruct Hc; congruence.
    + intros td Hi Hs _. destruct Hc; congruence.
  - split.
    + rewrite H. simpl. split; [discriminate|].
      intros [_ [_ [td Htd]]].
      destruct Hr as [Hr|[[st [j [Hr Hst]]]|Hr]]; congruence.
    + intros td _ _ Htd.
      destruct Hr as [Hr|[[st [j [Hr Hst]]]|Hr]]; congruence.
  - split.
    + rewrite H. simpl. split; [intros _; eauto | reflexivity].
    + intros td' _ _ Htd. assert (td' = td) as -> by congruence.
      rewrite H. simpl. rewrite <- app_assoc. repeat split.
Qed.

Lemma login_success_stores_tokens_witness :
  let env := sample_env (fun _ => Response 200
                                    (Some {| token_access := None;
                                             token_refresh := Some "R" |}))
                        (fun _ => ConnectionError) in
  let s := start (sample_client (Some "id")) in
  fst (login env s) = Ok true /\
  access_token (client (snd (login env s))) = None /\
  authorization (client (snd (login env s))) = Some "Bearer None".
Proof.
  intros env s.
  destruct (login_success_stores_tokens env s) as [Hiff Hok].
  split.
  - apply Hiff. split; [reflexivity|]. split; [reflexivity|]. eexists.
    reflexivity.
  - destruct (Hok {| token_access := None; token_refresh := Some "R" |}
                  eq_refl eq_refl eq_refl) as [H1 [_ [H3 _]]].
    split; [exact H1 | exact H3].
Defined.

(** ** The board mapping *)

Lemma add_sub_boards_listing (bs : list Board)
    (m : gmap (option Z) (option string)) :
  add_sub_boards bs m
  = fold_left put (map (fun b => (board_id b, board_name b)) bs) m.
Proof.
  unfold add_sub_boards. revert m.
  induction bs as [|b bs IH]; intros m; simpl; [reflexivity|]. apply IH.
Qed.

Lemma add_root_boards_listing (roots : list RootBoard)
    (m : gmap (option Z) (option string)) :
  add_root_boards roots m = fold_left put (listing roots) m.
Proof.
  unfold add_root_boards, listing. revert m.
  induction roots as [|r roots IH]; intros m; simpl; [reflexivity|].
  rewrite fold_left_app, IH. f_equal. apply add_sub_boards_listing.
Qed.

Lemma put_all_keeps (l : list (option Z * option string))
    (m : gmap (option Z) (option string)) (k : option Z) :
  is_Some (m !! k) -> is_Some (fold_left put l m !! k).
Proof.
  revert m; induction l as [|[k' v] l IH]; intros m Hm; simpl; [exact Hm|].
  apply IH. unfold put. simpl.
  destruct (decide (k' = k)) as [->|Hne].
  - rewrite lookup_insert_eq. eauto.
  - rewrite lookup_insert_ne by exact Hne. exact Hm.
Qed.

Lemma put_all_other (l : list (option Z * option string))
    (m : gmap (option Z) (option string)) (k : option Z) :
  ~ In k (map fst l) -> fold_left put l m !! k = m !! k.
Proof.
  revert m; induction l as [|[k' v] l IH]; intros m Hk; simpl; [reflexivity|].
  simpl in Hk. rewrite IH by tauto. unfold put. simpl.
  apply lookup_insert_ne. tauto.
Qed.

Lemma put_all_last (l1 l2 : list (option Z * option string))
    (m : gmap (option Z) (option string)) (k : option Z) (v : option string) :
  ~ In k (map fst l2) ->
  fold_left put (l1 ++ (k, v) :: l2) m !! k = Some v.
Proof.
  intros Hk. rewrite fold_left_app. simpl.
  rewrite put_all_other by exact Hk. unfold put. simpl.
  apply lookup_insert_eq.
Qed.

Lemma put_all_listed (l : list (option Z * option string))
    (m : gmap (option Z) (option string)) (k : option Z) :
  In k (map fst l) -> is_Some (fold_left put l m !! k).
Proof.
  revert m; induction l as [|[k' v] l IH]; intros m Hk; simpl; [contradiction|].
  simpl in Hk. destruct (in_dec (decide_rel eq) k (map fst l)) as [Hin|Hnin].
  - apply IH. exact Hin.
  - destruct Hk as [->|Hk]; [|contradiction].
    rewrite put_all_other by exact Hnin. unfold put. simpl.
    rewrite lookup_insert_eq. eauto.
Qed.

(** What a refresh leaves of the state it found. *)
Lemma refresh_board_map_effect (env : Env) (s : State) :
  let s' := snd (_refresh_board_map env s) in
  fst (_refresh_board_map env s) = Ok tt /\
  trace s' = (trace s ++ [EvGetAllBoards])%list /\
  clock s' = S (clock s) /\
  client_id (client s') = client_id (client s) /\
  client_secret (client s') = client_secret (client s) /\
  access_token (client s') = access_token (client s) /\
  refresh_token (client s') = refresh_token (client s) /\
  authorization (client s') = authorization (client s) /\
  board_map (client s')
  = match getter_result (board_all env (clock s)) with
    | Ok roots => fold_left put (listing roots) (board_map (client s))
    | Raise _ => board_map (client s)
    end.
Proof.
  destruct (refresh_board_map_run env s) as [m [H Hm]].
  rewrite H. simpl. repeat split. rewrite Hm.
  destruct (getter_result (board_all env (clock s))); [|reflexivity].
  apply add_root_boards_listing.
Qed.

Lemma refresh_board_map_keeps (env : Env) (s : State) (k : option Z) :
  is_Some (board_map (client s) !! k) ->
  is_Some (board_map (client (snd (_refresh_board_map env s))) !! k).
Proof.
  intros Hk.
  destruct (refresh_board_map_effect env s)
    as [_ [_ [_ [_ [_ [_ [_ [_ Hm]]]]]]]].
  rewrite Hm. destruct (getter_result (board_all env (clock s)));
    [apply put_all_keeps|]; exact Hk.
Qed.

(** X2: a refresh of the board mapping never raises and issues exactly one
    request; it never removes an id from the mapping, leaves the mapping as
    it was when the request fails (connection error, non-200 status,
    undecodable body), and touches neither credentials nor tokens. *)
Theorem refresh_board_map_only_adds (env : Env) (s : State) :
  let s' := snd (_refresh_board_map env s) in
  fst (_refresh_board_map env s) = Ok tt /\
  trace s' = (trace s ++ [EvGetAllBoards])%list /\
  clock s' = S (clock s) /\
  (forall k, is_Some (board_map (client s) !! k) ->
             is_Some (board_map (client s') !! k)) /\
  (request_failed (board_all env (clock s)) ->
   board_map (client s') = board_map (client s)) /\
  client_id (client s') = client_id (client s) /\
  client_secret (client s') = client_secret (client s) /\
  access_token (client s') = access_token (client s) /\
  refresh_token (client s') = refresh_token (client s).
Proof.
  intros s'. subst s'.
  destruct (refresh_board_map_effect env s)
    as [H1 [H2 [H3 [H4 [H5 [H6 [H7 [_ Hm]]]]]]]].
  split; [exact H1|]. split; [exact H2|]. split; [exact H3|].
  split; [intros k; apply refresh_board_map_keeps|].
  split; [|repeat split; assumption].
  intros Hfail. rewrite Hm.
  destruct (board_all env (clock s)) as [|st j]; simpl in *; [reflexivity|].
  destruct (Z.eqb_spec st 200) as [->|Hne].
  - destruct Hfail as [Hf| ->]; [contradiction | reflexivity].
  - reflexivity.
Qed.

Lemma refresh_board_map_only_adds_witness :
  let s := start (client_with_boards {[ Some 459 := Some "Jobs" ]}) in
  board_map (client (snd (_refresh_board_map offline_env s)))
  = {[ Some 459 := Some "Jobs" ]}.
Proof.
  intros s.
  destruct (refresh_board_map_only_adds offline_env s)
    as [_ [_ [_ [_ [H _]]]]].
  apply H. exact I.
Defined.

(** X3: after a refresh answered 200 with a board hierarchy, every listed id
    (top-level or sub-board) is in the mapping; an id holds the name of the
    last entry that lists it; an id the hierarchy does not list keeps what it
    had. *)
Theorem refresh_board_map_stores_listing (env : Env) (s : State)
    (roots : list RootBoard) :
  board_all env (clock s) = Response 200 (Some roots) ->
  let m' := board_map (client (snd (_refresh_board_map env s))) in
  (forall k, In k (map fst (listing roots)) -> is_Some (m' !! k)) /\
  (forall l1 k v l2,
      listing roots = (l1 ++ (k, v) :: l2)%list ->
      ~ In k (map fst l2) -> m' !! k = Some v) /\
  (forall k, ~ In k (map fst (listing roots)) ->
             m' !! k = board_map (client s) !! k).
Proof.
  intros Hresp m'. subst m'.
  destruct (refresh_board_map_effect env s)
    as [_ [_ [_ [_ [_ [_ [_ [_ Hm]]]]]]]].
  rewrite Hm, Hresp. simpl.
  split; [intros k; apply put_all_listed|].
  split; [|intros k; apply put_all_other].
  intros l1 k v l2 -> Hk. apply put_all_last. exact Hk.
Qed.

Lemma refresh_board_map_stores_listing_witness :
  let s := start (client_with_boards ∅) in
  board_map (client (snd (_refresh_board_map (boards_env jobs_hierarchy) s)))
    !! Some 459 = Some (Some "Jobs").
Proof.
  intros s.
  destruct (refresh_board_map_stores_listing (boards_env jobs_hierarchy) s
              jobs_hierarchy eq_refl) as [_ [H _]].
  apply (H [(Some 2, Some "Campus")] (Some 459) (Some "Jobs")
           [(Some 68, Some "Chat")]); [reflexivity|].
  simpl. intros [He|[]]. discriminate.
Defined.

(** ** get_board_name, filling and reusing the mapping *)

Lemma stored_name_truthy (s : State) (b : option Z) (n : string) :
  board_map (client s) !! b = Some (Some n) -> n <> "" ->
  stored_name s b = Some n /\ Py.truthy (stored_name s b) = true /\
  board_map (client s) <> ∅.
Proof.
  intros Hl Hn.
  assert (stored_name s b = Some n) as Hs
      by (unfold stored_name, Py.dict_get; rewrite Hl; reflexivity).
  split; [exact Hs|]. split.
  - rewrite Hs. apply truthy_Some. eauto.
  - intros He. rewrite He, lookup_empty in Hl. discriminate.
Qed.

(** A stored non-empty name is answered from the mapping, whatever the
    environment. *)
Lemma get_board_name_cached (env : Env) (b : option Z) (s : State)
    (n : string) :
  board_map (client s) !! b = Some (Some n) -> n <> "" ->
  get_board_name env b s = (Ok n, s).
Proof.
  intros Hl Hn.
  destruct (stored_name_truthy s b n Hl Hn) as [Hs [Ht Hne]].
  destruct (get_board_name_cases env b s)
    as [[_ [_ Hr]]|[[_ [Hf _]]|[[He _]|[He _]]]];
    try congruence.
  rewrite Hr, Hs. reflexivity.
Qed.

(** X4: with an empty mapping, [get_board_name] fills the mapping with one
    request and returns the name the hierarchy lists last for the id, when
    that name is a non-empty string; a second call for the same id is
    answered from the mapping, without any request and without changing the
    state, whatever the network does. *)
Theorem get_board_name_fills_then_reuses (env : Env) (b : option Z)
    (s : State) (roots : list RootBoard) (n : string)
    (l1 l2 : list (option Z * option string)) :
  board_map (client s) = ∅ ->
  board_all env (clock s) = Response 200 (Some roots) ->
  listing roots = (l1 ++ (b, Some n) :: l2)%list ->
  ~ In b (map fst l2) ->
  n <> "" ->
  let s' := snd (get_board_name env b s) in
  get_board_name env b s = (Ok n, s') /\
  board_fetches s s' = 1%nat /\
  clock s' = S (clock s) /\
  forall env', get_board_name env' b s' = (Ok n, s').
Proof.
  intros He Hresp Hl Hlast Hn s'. subst s'.
  set (s1 := snd (_refresh_board_map env s)).
  assert (board_map (client s1) !! b = Some (Some n)) as Hstored.
  { destruct (refresh_board_map_effect env s)
      as [_ [_ [_ [_ [_ [_ [_ [_ Hm]]]]]]]].
    fold s1 in Hm. rewrite Hm, Hresp. simpl. rewrite Hl.
    apply put_all_last. exact Hlast. }
  destruct (stored_name_truthy s1 b n Hstored Hn) as [Hs [Ht _]].
  destruct (get_board_name_cases env b s)
    as [[Hne _]|[[Hne _]|[[_ [_ [Hf Hr]]]|[_ [Hfalse _]]]]];
    try contradiction.
  - fold s1 in Hr, Hf. rewrite Hr. simpl snd.
    split; [rewrite Hs; reflexivity|]. split; [exact Hf|].
    split.
    + destruct (refresh_board_map_effect env s) as [_ [_ [Hc _]]].
      exact Hc.
    + intros env'. apply get_board_name_cached; assumption.
  - fold s1 in Hfalse. congruence.
Qed.

Lemma get_board_name_fills_then_reuses_witness :
  let s := start (client_with_boards ∅) in
  let s' := snd (get_board_name (boards_env jobs_hierarchy) (Some 459) s) in
  get_board_name (boards_env jobs_hierarchy) (Some 459) s = (Ok "Jobs", s') /\
  get_board_name offline_env (Some 459) s' = (Ok "Jobs", s').
Proof.
  intros s s'.
  destruct (get_board_name_fills_then_reuses
              (boards_env jobs_hierarchy) (Some 459) s jobs_hierarchy "Jobs"
              [(Some 2, Some "Campus")] [(Some 68, Some "Chat")])
    as [H1 [_ [_ H4]]];
    try reflexivity.
  - simpl. intros [He|[]]. discriminate.
  - discriminate.
  - split; [exact H1 | apply H4].
Defined.

(** X5: a call of [get_board_name] issues at most two requests, all of them
    for the board hierarchy, never raises, never removes an id from the
    mapping and touches neither credentials nor tokens. *)
Theorem get_board_name_only_fetches_boards (env : Env) (b : option Z)
    (s : State) :
  let s' := snd (get_board_name env b s) in
  exists n,
    (n <= 2)%nat /\
    trace s' = (trace s ++ repeat EvGetAllBoards n)%list /\
    clock s' = (clock s + n)%nat /\
    (exists name, fst (get_board_name env b s) = Ok name) /\
    (forall k, is_Some (board_map (client s) !! k) ->
               is_Some (board_map (client s') !! k)) /\
    client_id (client s') = client_id (client s) /\
    client_secret (client s') = client_secret (client s) /\
    access_token (client s') = access_token (client s) /\
    refresh_token (client s') = refresh_token (client s).
Proof.
  intros s'. subst s'.
  set (s1 := snd (_refresh_board_map env s)).
  set (s2 := snd (_refresh_board_map env s1)).
  destruct (refresh_board_map_effect env s)
    as [_ [Ht1 [Hc1 [Ha1 [Hb1 [Hd1 [He1 _]]]]]]].
  destruct (refresh_board_map_effect env s1)
    as [_ [Ht2 [Hc2 [Ha2 [Hb2 [Hd2 [He2 _]]]]]]].
  fold s1 in Ht1, Hc1, Ha1, Hb1, Hd1, He1.
  fold s2 in Ht2, Hc2, Ha2, Hb2, Hd2, He2.
  destruct (get_board_name_cases env b s)
    as [[_ [_ Hr]]|[[_ [_ [_ Hr]]]|[[_ [_ [_ Hr]]]|[_ [_ [_ Hr]]]]]];
    fold s1 in Hr; try fold s2 in Hr; rewrite Hr; simpl fst; simpl snd.
  - exists 0%nat. simpl. rewrite app_nil_r, Nat.add_0_r.
    repeat split; eauto.
  - exists 1%nat. rewrite Hc1, Nat.add_1_r. repeat split; eauto.
    intros k. apply refresh_board_map_keeps.
  - exists 1%nat. rewrite Hc1, Nat.add_1_r. repeat split; eauto.
    intros k. apply refresh_board_map_keeps.
  - exists 2%nat. rewrite Ht2, Ht1, Hc2, Hc1, <- app_assoc.
    repeat split; eauto; try congruence; try lia.
    intros k Hk. apply refresh_board_map_keeps, refresh_board_map_keeps.
    exact Hk.
Qed.

(** ** The content of a matched topic *)

(** X6: fetching the content of a topic never raises and issues exactly one
    request, leaving the client as it was.  The text is "No content
    available." when the request fails in any way or the topic has no post,
    the content of the first post when it has one, and "No content." when the
    first post carries no content. *)
Theorem fetch_content_falls_back (env : Env) (t : Z) (s : State) :
  snd (fetch_content env t s) = advance (EvGetPosts t) s /\
  (request_failed (topic_post env t (clock s)) ->
   fst (fetch_content env t s) = Ok "No content available.") /\
  (topic_post env t (clock s) = Response 200 (Some []) ->
   fst (fetch_content env t s) = Ok "No content available.") /\
  (forall p ps,
      topic_post env t (clock s) = Response 200 (Some (p :: ps)) ->
      fst (fetch_content env t s) = Ok (default "No content." (content p))).
Proof.
  unfold fetch_content, try_except, bind. rewrite get_posts_run.
  destruct (topic_post env t (clock s)) as [|st j] eqn:Hr; simpl.
  - repeat split; intros; discriminate.
  - destruct (Z.eqb_spec st 200) as [->|Hne].
    + destruct j as [[|p ps]|]; simpl.
      * split; [reflexivity|]. split; [reflexivity|].
        split; [reflexivity | intros; discriminate].
      * split; [reflexivity|]. split.
        { intros [Hf|Hf]; [contradiction | discriminate]. }
        split; [discriminate|]. intros p' ps' Hq.
        injection Hq as -> ->. reflexivity.
      * split; [reflexivity|]. split; [reflexivity|].
        split; intros; discriminate.
    + simpl. split; [reflexivity|]. split; [reflexivity|].
      split; intros; congruence.
Qed.

Lemma fetch_content_falls_back_witness :
  fst (fetch_content offline_env 104 after_startup)
  = Ok "No content available.".
Proof.
  destruct (fetch_content_falls_back offline_env 104 after_startup)
    as [_ [H _]].
  apply H. exact I.
Defined.

(** ** dingtalk.py *)

(** Without a webhook URL or without a signature secret nothing happens. *)
Lemma send_dingtalk_message_unconfigured (env : Env) (msg : string)
    (s : State) :
  configured env = false ->
  send_dingtalk_message env msg s = (Ok tt, s).
Proof.
  unfold configured, send_dingtalk_message. intros H.
  rewrite <- negb_andb, H. reflexivity.
Qed.

(** With URL and secret set: one request, and the answers that raise. *)
Lemma send_dingtalk_message_configured (env : Env) (msg : string)
    (s : State) :
  configured env = true ->
  snd (send_dingtalk_message env msg s) = advance (EvPostWebhook msg) s /\
  ((exists e, fst (send_dingtalk_message env msg s) = Raise e) <->
   webhook env msg (clock s) = ConnectionError \/
   webhook env msg (clock s) = Response 200 None \/
   (exists reply,
       webhook env msg (clock s) = Response 200 (Some reply) /\
       (errcode reply = None \/
        (errcode reply <> Some 0 /\ errmsg reply = None)))) /\
  (forall st j, webhook env msg (clock s) = Response st j -> st <> 200 ->
                fst (send_dingtalk_message env msg s) = Ok tt).
Proof.
  unfold configured, send_dingtalk_message. intros H.
  rewrite <- negb_andb, H. change (negb true) with false.
  unfold bind, request, json_of, ret, raise. cbv beta iota.
  destruct (webhook env msg (clock s)) as [|st j]; simpl.
  - split; [reflexivity|]. split; [|intros; discriminate].
    split; [intros _; left; reflexivity | intros _; eauto].
  - destruct (Z.eqb_spec st 200) as [->|Hne]; simpl.
    + destruct j as [[[code|] msg']|]; simpl.
      * destruct (Z.eqb_spec code 0) as [->|Hc]; simpl.
        -- split; [reflexivity|]. split; [|intros; reflexivity].
           split; [intros [e He]; discriminate|].
           intros [Hq|[Hq|[reply [Hq [Hn|[Hn _]]]]]]; try discriminate;
             injection Hq as <-; simpl in Hn; congruence.
        -- destruct msg' as [text|]; simpl.
           ++ split; [reflexivity|]. split; [|intros; reflexivity].
              split; [intros [e He]; discriminate|].
              intros [Hq|[Hq|[reply [Hq [Hn|[_ Hn]]]]]]; try discriminate;
                injection Hq as <-; simpl in Hn; congruence.
           ++ split; [reflexivity|]. split; [|intros ? ? Hq ?; congruence].
              split; [|intros _; eauto].
              intros _. right; right. eexists. split; [reflexivity|].
              right. simpl. split; [congruence | reflexivity].
      * split; [reflexivity|]. split; [|intros ? ? Hq ?; congruence].
        split; [|intros _; eauto].
        intros _. right; right. eexists. split; [reflexivity|].
        left. reflexivity.
      * split; [reflexivity|]. split; [|intros ? ? Hq ?; congruence].
        split; [intros _; right; left; reflexivity | intros _; eauto].
    + split; [reflexivity|]. split; [|intros; reflexivity].
      split; [intros [e He]; discriminate|].
      intros [Hq|[Hq|[reply [Hq _]]]]; congruence.
Qed.

(** X7: without a webhook URL or without a signature secret (unset or
    empty), [send_dingtalk_message] returns at once: no request, no
    exception, the state as it was.  With both set it issues exactly one
    request, the POST of the message, and raises exactly when that request
    fails to connect, or the answer has status 200 and a body that is
    undecodable, or lacks [errcode], or has a non-zero [errcode] and lacks
    [errmsg]; an answer with another status, and a refusal that carries both
    [errcode] and [errmsg], are only logged. *)
Theorem send_dingtalk_message_outcomes (env : Env) (msg : string)
    (s : State) :
  (configured env = false ->
   send_dingtalk_message env msg s = (Ok tt, s)) /\
  (configured env = true ->
   snd (send_dingtalk_message env msg s) = advance (EvPostWebhook msg) s /\
   ((exists e, fst (send_dingtalk_message env msg s) = Raise e) <->
    webhook env msg (clock s) = ConnectionError \/
    webhook env msg (clock s) = Response 200 None \/
    (exists reply,
        webhook env msg (clock s) = Response 200 (Some reply) /\
        (errcode reply = None \/
         (errcode reply <> Some 0 /\ errmsg reply = None)))) /\
   (forall st j, webhook env msg (clock s) = Response st j -> st <> 200 ->
                 fst (send_dingtalk_message env msg s) = Ok tt)).
Proof.
  split.
  - apply send_dingtalk_message_unconfigured.
  - apply send_dingtalk_message_configured.
Qed.

Lemma send_dingtalk_message_outcomes_witness :
  let env := webhook_env
               (Response 200 (Some {| errcode := Some 310000;
                                      errmsg := None |})) in
  send_dingtalk_message offline_env "alert" after_startup
  = (Ok tt, after_startup) /\
  configured env = true /\
  exists e, fst (send_dingtalk_message env "alert" after_startup) = Raise e.
Proof.
  intros env.
  destruct (send_dingtalk_message_outcomes offline_env "alert" after_startup)
    as [Hoff _].
  destruct (send_dingtalk_message_outcomes env "alert" after_startup)
    as [_ Hon].
  split; [apply Hoff; reflexivity|]. split; [reflexivity|].
  destruct (Hon eq_refl) as [_ [H _]].
  apply H. right; right. eexists. split; [reflexivity|].
  right. split; [discriminate | reflexivity].
Defined.

(** ** What can interrupt the candidate loop *)

Section Interrupt.

Variable lower : string -> string.
Variable format_message : Topic -> string -> string -> string.
Variable env : Env.

Local Abbreviation check := (check_topic_condition lower).
Local Abbreviation process := (process_topic lower format_message env).
Local Abbreviation loop := (for_topics lower format_message env).

(** For a topic whose fields are absent or of the type [Topic] gives them,
    the loop body raises only in the dispatch of a matched topic. *)
Lemma process_topic_raise (t : Topic) (m : Z) (s : State) (e : Exn) :
  fst (process t m s) = Raise e ->
  check t = true /\ configured env = true.
Proof.
  unfold process_topic. rewrite bind_ret_result. simpl fst.
  destruct (get_board_name_total env (boardId t) s) as [name [s1 Hn]].
  destruct (check t) eqn:Hc.
  - rewrite (bind_ok _ _ _ _ _ Hn).
    destruct (fetch_content_run env (topic_id t) s1) as [text Ht].
    rewrite (bind_ok _ _ _ _ _ Ht). unfold DEBUG.
    set (s2 := advance (EvGetPosts (topic_id t)) s1).
    set (msg := format_message t name text).
    rewrite (bind_ok _ _ s2 (record (EvDispatch (topic_id t) msg) s2) tt)
      by reflexivity.
    destruct (configured env) eqn:Hcfg; [auto|].
    unfold configured in Hcfg. unfold send_dingtalk_message.
    rewrite <- negb_andb, Hcfg. simpl. discriminate.
  - rewrite (bind_ok _ _ _ _ _ Hn). simpl. discriminate.
Qed.

Lemma quiet_process_unmatched (t : Topic) (m : Z) :
  check t = false -> quiet only_ignores (process t m).
Proof.
  intros Hc. unfold process_topic. rewrite Hc.
  apply quiet_bind; [|intros; apply quiet_ret].
  apply quiet_bind.
  - apply quiet_get_board_name. left. reflexivity.
  - intros name. apply quiet_log. right. eauto.
Qed.

Lemma quiet_loop_unmatched (l : list Topic) (m : Z) :
  (forall t, In t l -> check t = false) -> quiet only_ignores (loop l m).
Proof.
  revert m; induction l as [|t l IH]; intros m Hl; simpl.
  - apply quiet_ret.
  - apply quiet_bind.
    + apply quiet_process_unmatched. apply Hl. left. reflexivity.
    + intros m1. apply IH. intros u Hu. apply Hl. right. exact Hu.
Qed.

(** Where an interrupted loop stopped. *)
Lemma for_topics_raise (l : list Topic) (m : Z) (s : State) (e : Exn) :
  fst (loop l m s) = Raise e ->
  exists l1 t l2 d,
    l = (l1 ++ t :: l2)%list /\
    check t = true /\ configured env = true /\
    trace (snd (loop l m s)) = (trace s ++ d)%list /\
    evaluated d = map topic_id (l1 ++ [t])%list /\
    dispatched d = map topic_id (List.filter check l1 ++ [t])%list.
Proof.
  revert m s; induction l as [|t l IH]; intros m s; simpl.
  - unfold ret. simpl. discriminate.
  - unfold bind.
    destruct (process_topic_events lower format_message env t m s)
      as [d1 [Hd1 [He1 [Hs1 _]]]].
    pose proof (process_topic_raise t m s) as Hraise.
    destruct (process t m s) as [[m1|e1] s1]; simpl in Hd1, Hraise.
    + intros Hr.
      destruct (IH m1 s1 Hr)
        as [l1 [u [l2 [d2 [Hl [Hc [Hcfg [Hd2 [He2 Hs2]]]]]]]]].
      exists (t :: l1), u, l2, (d1 ++ d2)%list.
      split; [rewrite Hl; reflexivity|]. split; [exact Hc|].
      split; [exact Hcfg|].
      split; [rewrite Hd2, Hd1, app_assoc; reflexivity|].
      rewrite evaluated_app, dispatched_app, He1, Hs1, He2, Hs2.
      split; [reflexivity|]. simpl. destruct (check t); reflexivity.
    + simpl. intros Hr. destruct (Hraise e1 eq_refl) as [Hc Hcfg].
      exists [], t, l, d1.
      split; [reflexivity|]. split; [exact Hc|]. split; [exact Hcfg|].
      split; [exact Hd1|]. split; [exact He1|].
      rewrite Hs1, Hc. reflexivity.
Qed.

End Interrupt.

Lemma filter_none {A} (f : A -> bool) (l : list A) :
  (forall x, In x l -> f x = false) -> List.filter f l = [].
Proof.
  induction l as [|a l IH]; intros H; simpl; [reflexivity|].
  rewrite (H a) by (left; reflexivity).
  apply IH. intros x Hx. apply H. right. exact Hx.
Qed.

Lemma count_only_ignores (p : Event -> bool) (d : list Event) :
  p EvGetAllBoards = false -> (forall t, p (EvIgnored t) = false) ->
  Forall only_ignores d -> count p d = 0%nat.
Proof.
  intros Hb Hi Hd. apply count_none.
  eapply List.Forall_impl; [|exact Hd].
  intros e [->|[t ->]]; auto.
Qed.

Lemma candidates_max_bounds (m : Z) (topics : list Topic) :
  let m' := fold_left Z.max
              (map topic_id (sort_by_id (newer_than m topics))) m in
  m <= m' /\ forall t, In t topics -> topic_id t <= m'.
Proof.
  intros m'. subst m'.
  destruct (fold_max_bounds
              (map topic_id (sort_by_id (newer_than m topics))) m)
    as [Hlow [Hup _]].
  split; [exact Hlow|]. intros t Ht.
  destruct (Z.lt_ge_cases m (topic_id t)) as [Hgt|Hle]; [|lia].
  apply Hup. apply in_map. apply sort_by_id_In, newer_than_In. auto.
Qed.

Lemma trace_suffix_unique (s s' : State) (d1 d2 : list Event) :
  trace s' = (trace s ++ d1)%list -> trace s' = (trace s ++ d2)%list ->
  d1 = d2.
Proof. intros H1 H2. rewrite H1 in H2. eapply app_inv_head. exact H2. Qed.

(** X8: a cycle whose candidates all fail the rule completes: it evaluates
    every candidate in ascending order, dispatches nothing, fetches no post
    and posts nothing to the webhook, and ends with a mark that is at least
    every fetched id. *)
Theorem unmatched_cycle_completes
    (lower : string -> string)
    (format_message : Topic -> string -> string -> string) (env : Env)
    (max_id : Z) (s s1 : State) (topics : list Topic) :
  fetch_with_recovery env (record (EvSleep INTERVAL) s) = (Ok topics, s1) ->
  (forall t, In t topics -> max_id < topic_id t ->
             check_topic_condition lower t = false) ->
  let r := cycle lower format_message env max_id s in
  let d := new_events s (snd r) in
  cycle_body lower format_message env max_id (record (EvSleep INTERVAL) s) = r /\
  (exists m', fst r = Ok m' /\ max_id <= m' /\
              forall t, In t topics -> topic_id t <= m') /\
  evaluated d = map topic_id (sort_by_id (newer_than max_id topics)) /\
  dispatched d = [] /\
  count is_posts_fetch d = 0%nat /\
  count is_webhook_post d = 0%nat.
Proof.
  intros Hf Hno r d. subst d r.
  set (s0 := record (EvSleep INTERVAL) s) in *.
  assert (fetch_only EvGetNewTopics /\ fetch_only EvLogin /\
          fetch_only EvPostToken) as [Hq1 [Hq2 Hq3]] by (repeat split).
  destruct (quiet_fetch_with_recovery env fetch_only Hq1 Hq2 Hq3 s0)
    as [df [Hdf Hqf]].
  rewrite Hf in Hdf. simpl in Hdf.
  assert (evaluated df = [] /\ dispatched df = [] /\
          count is_posts_fetch df = 0%nat /\
          count is_webhook_post df = 0%nat) as [Hf1 [Hf2 [Hf3 Hf4]]].
  { destruct (no_topic_evaluated df) as [H1 H2].
    { eapply List.Forall_impl; [|exact Hqf]. intros e He. apply He. }
    split; [exact H1|]. split; [exact H2|].
    split; apply count_none; (eapply List.Forall_impl; [|exact Hqf]);
      intros e He; apply He. }
  set (C := sort_by_id (newer_than max_id topics)).
  assert (forall t, In t C -> check_topic_condition lower t = false) as HC.
  { intros t Ht. apply sort_by_id_In, newer_than_In in Ht as [Hin Hgt].
    apply Hno; assumption. }
  destruct (quiet_loop_unmatched lower format_message env C max_id HC s1)
    as [dq [Hdq Hqq]].
  destruct (for_topics_events lower format_message env C max_id s1)
    as [dl [k [Hdl [Hev [Hdi [Hok _]]]]]].
  assert (dq = dl) as -> by (eapply trace_suffix_unique; eassumption).
  pose proof (for_topics_raise lower format_message env C max_id s1) as Hr.
  pose proof (for_topics_result lower format_message env C max_id s1) as Hm.
  rewrite cycle_run. fold s0. rewrite cycle_body_run, Hf.
  destruct topics as [|t0 ts].
  - simpl. split; [reflexivity|].
    split; [exists max_id; split; [reflexivity|]; split; [lia|];
            intros t []|].
    rewrite (new_events_app s s1 ([EvSleep INTERVAL] ++ df))
      by (rewrite Hdf; subst s0; simpl; rewrite <- app_assoc; reflexivity).
    rewrite evaluated_app, dispatched_app, !count_app, Hf1, Hf2, Hf3, Hf4.
    repeat split.
  - fold C.
    destruct (for_topics lower format_message env C max_id s1)
      as [[m1|e] s2] eqn:Hloop; simpl in *.
    + rewrite (Hok (ex_intro _ m1 eq_refl)) in Hev, Hdi.
      rewrite (filter_none _ C HC) in Hdi.
      split; [reflexivity|]. split.
      { exists m1. split; [reflexivity|]. rewrite (Hm m1 eq_refl).
        exact (candidates_max_bounds max_id (t0 :: ts)). }
      rewrite (new_events_app s s2 (([EvSleep INTERVAL] ++ df) ++ dl))
        by (rewrite Hdl, Hdf; subst s0; simpl; rewrite <- !app_assoc;
            reflexivity).
      rewrite !evaluated_app, !dispatched_app, !count_app.
      rewrite Hf1, Hf2, Hf3, Hf4, Hev, Hdi.
      rewrite (count_only_ignores is_posts_fetch dl) by auto.
      rewrite (count_only_ignores is_webhook_post dl) by auto.
      repeat split.
    + destruct (Hr e eq_refl) as [l1 [u [l2 [_ [Hl [Hc _]]]]]].
      rewrite (HC u) in Hc; [discriminate|].
      rewrite Hl. apply in_or_app. right. left. reflexivity.
Qed.

Lemma unmatched_cycle_completes_witness :
  let env := scenario_env [mk_topic 104 68 "lost keys";
                           mk_topic 105 459 "tutoring wanted"] in
  let r := cycle ascii_lower sample_format env 103 after_startup in
  fst r = Ok 105 /\
  dispatched (new_events after_startup (snd r)) = [] /\
  evaluated (new_events after_startup (snd r)) = [104; 105].
Proof.
  intros env r.
  destruct (unmatched_cycle_completes ascii_lower sample_format env 103
              after_startup
              (advance EvGetNewTopics
                 (record (EvSleep INTERVAL) after_startup))
              [mk_topic 104 68 "lost keys"; mk_topic 105 459 "tutoring wanted"])
    as [_ [_ [He [Hd _]]]].
  - reflexivity.
  - intros t [<-|[<-|[]]] _; reflexivity.
  - split; [vm_compute; reflexivity|]. split; [exact Hd | exact He].
Defined.

Lemma for_topics_app
    (lower : string -> string)
    (format_message : Topic -> string -> string -> string) (env : Env)
    (l1 l2 : list Topic) (m m1 : Z) (s s2 : State) :
  for_topics lower format_message env l1 m s = (Ok m1, s2) ->
  for_topics lower format_message env (l1 ++ l2)%list m s
  = for_topics lower format_message env l2 m1 s2.
Proof.
  revert m s; induction l1 as [|t l1 IH]; intros m s H.
  - injection H as <- <-. reflexivity.
  - change ((t :: l1) ++ l2)%list with (t :: (l1 ++ l2))%list.
    cbn [for_topics] in H |- *. unfold bind in H |- *.
    destruct (process_topic lower format_message env t m s) as [[m0|e] s0];
      [|discriminate].
    apply IH. exact H.
Qed.

(** The matched branch of the loop body, when the webhook call raises. *)
Lemma process_topic_webhook_raise
    (lower : string -> string)
    (format_message : Topic -> string -> string -> string) (env : Env)
    (t : Topic) (m : Z) (s s1 s2 s3 : State) (name text : string) (e : Exn) :
  check_topic_condition lower t = true ->
  get_board_name env (boardId t) s = (Ok name, s1) ->
  fetch_content env (topic_id t) s1 = (Ok text, s2) ->
  send_dingtalk_message env (format_message t name text)
    (record (EvDispatch (topic_id t) (format_message t name text)) s2)
  = (Raise e, s3) ->
  process_topic lower format_message env t m s = (Raise e, s3).
Proof.
  intros Hc Hn Ht Hw. unfold process_topic. rewrite bind_ret_result, Hc.
  rewrite (bind_ok _ _ _ _ _ Hn), (bind_ok _ _ _ _ _ Ht). unfold DEBUG.
  set (msg := format_message t name text) in *.
  rewrite (bind_ok _ _ s2 (record (EvDispatch (topic_id t) msg) s2) tt)
    by reflexivity.
  rewrite Hw. reflexivity.
Qed.

(** X9: when the webhook call for a matched candidate raises, the cycle ends
    there and returns normally with the mark it started from, whatever the
    candidates before it were.  Those were evaluated, and the matched ones
    among them dispatched; the failing one was evaluated and its dispatch
    attempted; the candidates after it were not evaluated in this cycle. *)
Theorem webhook_exception_keeps_mark
    (lower : string -> string)
    (format_message : Topic -> string -> string -> string) (env : Env)
    (max_id : Z) (s s1 s2 s3 s4 s5 : State) (topics l1 l2 : list Topic)
    (t : Topic) (m1 : Z) (name text : string) (e : Exn) :
  fetch_with_recovery env (record (EvSleep INTERVAL) s) = (Ok topics, s1) ->
  sort_by_id (newer_than max_id topics) = (l1 ++ t :: l2)%list ->
  for_topics lower format_message env l1 max_id s1 = (Ok m1, s2) ->
  check_topic_condition lower t = true ->
  get_board_name env (boardId t) s2 = (Ok name, s3) ->
  fetch_content env (topic_id t) s3 = (Ok text, s4) ->
  send_dingtalk_message env (format_message t name text)
    (record (EvDispatch (topic_id t) (format_message t name text)) s4)
  = (Raise e, s5) ->
  let d := new_events s (snd (cycle lower format_message env max_id s)) in
  cycle_body lower format_message env max_id (record (EvSleep INTERVAL) s)
  = (Raise e, s5) /\
  cycle lower format_message env max_id s = (Ok max_id, s5) /\
  evaluated d = map topic_id (l1 ++ [t])%list /\
  dispatched d
  = map topic_id (List.filter (check_topic_condition lower) l1 ++ [t])%list.
Proof.
  intros Hf Hl Hl1 Hc Hn Ht Hw d. subst d.
  set (s0 := record (EvSleep INTERVAL) s) in *.
  pose proof (process_topic_webhook_raise lower format_message env t m1
                s2 s3 s4 s5 name text e Hc Hn Ht Hw) as Hp.
  assert (for_topics lower format_message env (l1 ++ t :: l2)%list max_id s1
          = (Raise e, s5)) as Hloop.
  { rewrite (for_topics_app lower format_message env l1 (t :: l2) max_id m1
               s1 s2 Hl1).
    cbn [for_topics]. unfold bind. rewrite Hp. reflexivity. }
  assert (cycle_body lower format_message env max_id s0 = (Raise e, s5))
    as Hbody.
  { rewrite cycle_body_run, Hf.
    destruct topics as [|t0 ts].
    - destruct l1; discriminate Hl.
    - rewrite Hl. exact Hloop. }
  split; [exact Hbody|].
  assert (cycle lower format_message env max_id s = (Ok max_id, s5)) as Hcyc.
  { rewrite cycle_run. fold s0. rewrite Hbody. reflexivity. }
  split; [exact Hcyc|].
  rewrite Hcyc. cbn [snd].
  destruct no_topic_fetch_events as [Hn1 [Hn2 Hn3]].
  destruct (quiet_fetch_with_recovery env no_topic Hn1 Hn2 Hn3 s0)
    as [df [Hdf Hqf]].
  rewrite Hf in Hdf. cbn [snd] in Hdf.
  destruct (no_topic_evaluated df Hqf) as [Hf1 Hf2].
  destruct (for_topics_events lower format_message env l1 max_id s1)
    as [d1 [k [Hd1 [He1 [Hi1 [Hk _]]]]]].
  rewrite Hl1 in Hd1, Hk. cbn [fst snd] in Hd1, Hk.
  rewrite (Hk (ex_intro _ m1 eq_refl)) in He1, Hi1.
  destruct (process_topic_events lower format_message env t m1 s2)
    as [dt [Hdt [Het [Hit _]]]].
  rewrite Hp in Hdt. cbn [snd] in Hdt. rewrite Hc in Hit.
  rewrite (new_events_app s s5 ((([EvSleep INTERVAL] ++ df) ++ d1) ++ dt))
    by (rewrite Hdt, Hd1, Hdf; subst s0; simpl; rewrite <- !app_assoc;
        reflexivity).
  rewrite !evaluated_app, !dispatched_app, Hf1, Hf2, He1, Hi1, Het, Hit.
  rewrite !map_app. split; reflexivity.
Qed.

Lemma webhook_exception_keeps_mark_witness :
  let env := webhook_env ConnectionError in
  let r := cycle ascii_lower sample_format env 102 after_startup in
  fst r = Ok 102 /\
  evaluated (new_events after_startup (snd r)) = [103; 104] /\
  dispatched (new_events after_startup (snd r)) = [104].
Proof.
  intros env r.
  set (s1 := advance EvGetNewTopics (record (EvSleep INTERVAL) after_startup)).
  set (t := mk_topic 104 459 "React developer wanted").
  set (s2 := snd (for_topics ascii_lower sample_format env
                    [mk_topic 103 459 "old tutoring"] 102 s1)).
  set (s3 := snd (get_board_name env (boardId t) s2)).
  set (s4 := snd (fetch_content env (topic_id t) s3)).
  set (name := "Jobs"%string).
  set (text := "No content available."%string).
  set (s5 := snd (send_dingtalk_message env (sample_format t name text)
                    (record (EvDispatch (topic_id t)
                               (sample_format t name text)) s4))).
  destruct (webhook_exception_keeps_mark ascii_lower sample_format env 102
              after_startup s1 s2 s3 s4 s5 next_batch
              [mk_topic 103 459 "old tutoring"] [mk_topic 105 68 "lost keys"]
              t 103 name text RequestException)
    as [_ [Hc [He Hd]]]; try (vm_compute; reflexivity).
  unfold r. rewrite Hc. split; [reflexivity|]. split; [exact He | exact Hd].
Defined.

(** ** The baseline and what it shields *)

Lemma newer_than_none (m : Z) (topics : list Topic) :
  (forall t, In t topics -> topic_id t <= m) -> newer_than m topics = [].
Proof.
  intros H. unfold newer_than. apply filter_none.
  intros t Ht. apply Z.ltb_ge. apply H. exact Ht.
Qed.

(** The baseline of a fetched batch bounds its ids: it is the greatest of
    them, and 0 for an empty batch. *)
Lemma baseline_bounds (env : Env) (s s1 : State) (topics : list Topic) :
  get_new_topics env s = (Ok topics, s1) ->
  exists m,
    baseline env s = (Ok m, s1) /\
    (forall t, In t topics -> topic_id t <= m) /\
    (topics = [] -> m = 0) /\
    (topics <> [] -> exists t, In t topics /\ topic_id t = m).
Proof.
  intros Hg. rewrite baseline_run.
  rewrite get_new_topics_run in Hg. injection Hg as Hg <-. rewrite Hg.
  destruct topics as [|t ts].
  - exists 0. split; [reflexivity|]. split; [intros t []|].
    split; [reflexivity | intros H; contradiction].
  - eexists. split; [reflexivity|].
    destruct (fold_max_bounds (map topic_id ts) (topic_id t))
      as [Hlow [Hup Hin]].
    split.
    { intros u [<-|Hu]; [exact Hlow | apply Hup, in_map; exact Hu]. }
    split; [discriminate|]. intros _.
    destruct Hin as [Hin|Hin].
    + exists t. split; [left; reflexivity | symmetry; exact Hin].
    + apply in_map_iff in Hin as [u [Hid Hu]].
      exists u. split; [right; exact Hu | exact Hid].
Qed.

(** The ids a cycle evaluates are above its mark. *)
Lemma cycle_evaluated_above
    (lower : string -> string)
    (format_message : Topic -> string -> string -> string) (env : Env)
    (m : Z) (s : State) (x : Z) :
  In x (evaluated
          (new_events s (snd (cycle lower format_message env m s)))) ->
  m < x.
Proof.
  destruct (cycle_summary lower format_message env m s)
    as [m' [s' [topics [k [d_pre [d_loop
         [Hc [_ [Ht [Hq [Hev _]]]]]]]]]]].
  rewrite Hc. simpl snd.
  destruct (new_events_cycle s s' d_pre d_loop Ht Hq) as [He _].
  rewrite He, Hev. intros Hx.
  apply in_map_iff in Hx as [t [<- Hin]].
  apply take_In, sort_by_id_In, newer_than_In in Hin. apply Hin.
Qed.

(** One cycle: its new events, and every id among them above its mark. *)
Lemma cycle_ids_above
    (lower : string -> string)
    (format_message : Topic -> string -> string -> string) (env : Env)
    (m : Z) (s : State) :
  exists m' s' d,
    cycle lower format_message env m s = (Ok m', s') /\
    m <= m' /\
    trace s' = (trace s ++ d)%list /\
    forall x, In x (evaluated d) \/ In x (dispatched d) -> m < x.
Proof.
  destruct (cycle_summary lower format_message env m s)
    as [m' [s' [topics [k [d_pre [d_loop
         [Hc [Hle [Ht [Hq [Hev [Hdi _]]]]]]]]]]]].
  exists m', s', (d_pre ++ d_loop)%list.
  split; [exact Hc|]. split; [exact Hle|]. split; [exact Ht|].
  destruct (no_topic_evaluated d_pre Hq) as [Hp1 Hp2].
  rewrite evaluated_app, dispatched_app, Hp1, Hp2, Hev, Hdi. simpl.
  intros x [Hx|Hx]; apply in_map_iff in Hx as [t [<- Hin]].
  - apply take_In, sort_by_id_In, newer_than_In in Hin. apply Hin.
  - apply filter_In in Hin as [Hin _].
    apply take_In, sort_by_id_In, newer_than_In in Hin. apply Hin.
Qed.

(** Any number of cycles: the loop is still polling, its mark has not gone
    down, and every id it evaluated or dispatched is above the mark it
    started from. *)
Lemma poll_loop_ids_above
    (lower : string -> string)
    (format_message : Topic -> string -> string -> string) (env : Env)
    (n : nat) (m : Z) (s : State) :
  exists m' s' d,
    poll_loop lower format_message env n m s = (Ok (Polling m'), s') /\
    m <= m' /\
    trace s' = (trace s ++ d)%list /\
    forall x, In x (evaluated d) \/ In x (dispatched d) -> m < x.
Proof.
  revert m s; induction n as [|n IH]; intros m s.
  - exists m, s, []. split; [reflexivity|]. split; [lia|].
    split; [rewrite app_nil_r; reflexivity|]. intros x [[]|[]].
  - destruct (cycle_ids_above lower format_message env m s)
      as [m1 [s1 [d1 [Hc [Hle1 [Ht1 Hab1]]]]]].
    destruct (IH m1 s1) as [m2 [s2 [d2 [Hp [Hle2 [Ht2 Hab2]]]]]].
    exists m2, s2, (d1 ++ d2)%list.
    split; [cbn [poll_loop]; rewrite (bind_ok _ _ _ _ _ Hc); exact Hp|].
    split; [lia|].
    split; [rewrite Ht2, Ht1, app_assoc; reflexivity|].
    intros x. rewrite evaluated_app, dispatched_app, !in_app_iff.
    intros [[Hx|Hx]|[Hx|Hx]].
    + apply Hab1; auto.
    + specialize (Hab2 x (or_introl Hx)). lia.
    + apply Hab1; auto.
    + specialize (Hab2 x (or_intror Hx)). lia.
Qed.

(** X10: when the startup login succeeds and the baseline fetch returns a
    batch, [main] goes on polling, its mark is never below an id of that
    batch, and no topic of that batch is ever evaluated or dispatched: every
    id the run evaluates or dispatches, in any later cycle and against any
    later batch, is greater than every id of the baseline batch.  (A baseline
    fetch answered with a status other than 200 returns the empty batch,
    which shields nothing.) *)
Theorem startup_batch_never_notifies
    (lower : string -> string)
    (format_message : Topic -> string -> string -> string) (env : Env)
    (s s1 s2 : State) (topics : list Topic) :
  login env s = (Ok true, s1) ->
  get_new_topics env s1 = (Ok topics, s2) ->
  forall fuel : nat,
    let r := main lower format_message env fuel s in
    let d := new_events s (snd r) in
    (exists m, fst r = Ok (Polling m) /\
               forall t, In t topics -> topic_id t <= m) /\
    (forall x t,
        In x (evaluated d) \/ In x (dispatched d) ->
        In t topics -> topic_id t < x).
Proof.
  intros Hl Hg fuel r d. subst d r.
  destruct (baseline_bounds env s1 s2 topics Hg) as [m0 [Hb [Hall _]]].
  destruct (poll_loop_ids_above lower format_message env fuel m0 s2)
    as [m' [s' [dp [Hp [Hle [Htp Hab]]]]]].
  assert (main lower format_message env fuel s = (Ok (Polling m'), s'))
    as Hmain.
  { unfold main. rewrite (bind_ok _ _ _ _ _ Hl). cbn [negb].
    unfold bind at 1. unfold try_except.
    rewrite (bind_ok _ _ _ _ _ Hb). cbn [ret]. exact Hp. }
  rewrite Hmain. cbn [fst snd].
  split.
  { exists m'. split; [reflexivity|]. intros t Ht.
    specialize (Hall t Ht). lia. }
  assert (quiet no_topic (login env)) as Hq
      by (apply quiet_login; split; reflexivity).
  destruct (Hq s) as [dl [Hdl Hql]]. rewrite Hl in Hdl. cbn [snd] in Hdl.
  destruct (no_topic_evaluated dl Hql) as [Hl1 Hl2].
  assert (trace s2 = (trace s1 ++ [EvGetNewTopics])%list) as Hdg.
  { rewrite get_new_topics_run in Hg. injection Hg as _ <-. reflexivity. }
  rewrite (new_events_app s s' ((dl ++ [EvGetNewTopics]) ++ dp))
    by (rewrite Htp, Hdg, Hdl, <- !app_assoc; reflexivity).
  rewrite !evaluated_app, !dispatched_app, Hl1, Hl2. simpl.
  intros x t Hx Ht. specialize (Hab x Hx). specialize (Hall t Ht). lia.
Qed.

Lemma startup_batch_never_notifies_witness :
  let env := scenario_env next_batch in
  let s := start (sample_client (Some "id")) in
  let r := main ascii_lower sample_format env 2 s in
  let d := new_events s (snd r) in
  fst r = Ok (Polling 105) /\
  evaluated d = [104; 105] /\
  dispatched d = [104] /\
  (forall x, In x (evaluated d) \/ In x (dispatched d) -> 103 < x).
Proof.
  intros env s r d.
  split; [vm_compute; reflexivity|].
  split; [vm_compute; reflexivity|].
  split; [vm_compute; reflexivity|].
  set (s1 := snd (login env s)).
  destruct (startup_batch_never_notifies ascii_lower sample_format env
              s s1 (advance EvGetNewTopics s1) startup_batch
              ltac:(vm_compute; reflexivity) ltac:(vm_compute; reflexivity)
              2%nat) as [_ Hnew].
  intros x Hx.
  apply (Hnew x (mk_topic 103 459 "old tutoring") Hx).
  right. right. left. reflexivity.
Defined.

(** X11: once a cycle has completed on a fetched batch, no topic of that
    batch is evaluated again: every id evaluated by a later cycle, run from
    the mark that cycle left or from any later mark, against any network, is
    greater than every id of the batch. *)
Theorem completed_batch_not_reevaluated
    (lower : string -> string)
    (format_message : Topic -> string -> string -> string) (env : Env)
    (max_id : Z) (s s1 s' : State) (topics : list Topic) (m' : Z) :
  fetch_with_recovery env (record (EvSleep INTERVAL) s) = (Ok topics, s1) ->
  cycle_body lower format_message env max_id (record (EvSleep INTERVAL) s)
  = (Ok m', s') ->
  cycle lower format_message env max_id s = (Ok m', s') /\
  forall env2 later s2 x t,
    m' <= later ->
    In x (evaluated
            (new_events s2 (snd (cycle lower format_message env2 later s2)))) ->
    In t topics -> topic_id t < x.
Proof.
  intros Hf Hb.
  split; [rewrite cycle_run, Hb; reflexivity|].
  assert (forall t, In t topics -> topic_id t <= m') as Hall.
  { rewrite cycle_body_run, Hf in Hb.
    destruct topics as [|t0 ts]; [intros t []|].
    rewrite (for_topics_result lower format_message env _ max_id s1 m')
      by (rewrite Hb; reflexivity).
    apply candidates_max_bounds. }
  intros env2 later s2 x t Hle Hx Ht.
  apply cycle_evaluated_above in Hx. specialize (Hall t Ht). lia.
Qed.

Lemma completed_batch_not_reevaluated_witness :
  let env := scenario_env next_batch in
  let r := cycle ascii_lower sample_format env 103 after_startup in
  fst r = Ok 105 /\
  evaluated (new_events (snd r)
               (snd (cycle ascii_lower sample_format env 105 (snd r)))) = [].
Proof.
  intros env r.
  set (b := cycle_body ascii_lower sample_format env 103
              (record (EvSleep INTERVAL) after_startup)).
  assert (b = (Ok 105, snd b)) as Hb by (vm_compute; reflexivity).
  destruct (completed_batch_not_reevaluated ascii_lower sample_format env
              103 after_startup
              (advance EvGetNewTopics
                 (record (EvSleep INTERVAL) after_startup))
              (snd b) next_batch 105 eq_refl Hb) as [Hc _].
  split; [unfold r; rewrite Hc; reflexivity|].
  vm_compute. reflexivity.
Defined.

(** ** The sort *)

Lemma insert_by_id_stable (x : Z) (t : Topic) (l : list Topic) :
  List.filter (fun u => topic_id u =? x) (insert_by_id t l)
  = List.filter (fun u => topic_id u =? x) (t :: l).
Proof.
  induction l as [|u l IH]; [reflexivity|].
  simpl insert_by_id.
  destruct (Z.leb_spec (topic_id t) (topic_id u)) as [Hle|Hgt];
    [reflexivity|].
  simpl. simpl in IH. rewrite IH.
  destruct (Z.eqb_spec (topic_id u) x) as [Hu|Hu];
    destruct (Z.eqb_spec (topic_id t) x) as [Ht|Ht]; try reflexivity.
  lia.
Qed.

(** X12: the sort applied to the candidates is a stable ascending sort: its
    result has the same topics, in ascending order of id, and topics with
    the same id keep the order in which they were fetched. *)
Theorem sort_by_id_stable (l : list Topic) :
  Permutation (sort_by_id l) l /\
  StronglySorted id_le (sort_by_id l) /\
  forall x,
    List.filter (fun u => topic_id u =? x) (sort_by_id l)
    = List.filter (fun u => topic_id u =? x) l.
Proof.
  split; [apply sort_by_id_perm|]. split; [apply sort_by_id_sorted|].
  intros x. induction l as [|t l IH]; [reflexivity|].
  simpl sort_by_id. rewrite insert_by_id_stable. simpl. rewrite IH.
  reflexivity.
Qed.

(** ** The requests of one cycle *)

Section Budget.

Variable lower : string -> string.
Variable format_message : Topic -> string -> string -> string.
Variable env : Env.

Lemma cycle_trace_shape (m : Z) (s : State) :
  exists d_rec d_loop,
    trace (snd (cycle lower format_message env m s))
    = (trace s ++ [EvSleep INTERVAL; EvGetNewTopics] ++ d_rec ++ d_loop)%list /\
    Forall (fun e => is_login e = false /\ is_fetch e = false /\
                     is_sleep e = false) d_loop /\
    count is_sleep d_rec = 0%nat /\
    ((d_rec = [] /\
      fst (get_new_topics env (record (EvSleep INTERVAL) s)) <> Ok []) \/
     (fst (get_new_topics env (record (EvSleep INTERVAL) s)) = Ok [] /\
      count is_login d_rec = 1%nat /\ (count is_fetch d_rec <= 1)%nat)).
Proof.
  set (s0 := record (EvSleep INTERVAL) s).
  set (s1 := advance EvGetNewTopics s0).
  assert (trace s1 = (trace s ++ [EvSleep INTERVAL; EvGetNewTopics])%list)
    as Ht1 by (subst s1 s0; simpl; rewrite <- app_assoc; reflexivity).
  assert (forall l m0 s3 d3,
             trace s3 = (trace s ++ [EvSleep INTERVAL; EvGetNewTopics]
                           ++ d3)%list ->
             exists d_loop,
               trace (snd (match for_topics lower format_message env l m0 s3
                           with
                           | (Ok m', s') => (Ok m', s')
                           | (Raise _, s') => (Ok m, s')
                           end))
               = (trace s ++ [EvSleep INTERVAL; EvGetNewTopics]
                    ++ d3 ++ d_loop)%list /\
               Forall (fun e => is_login e = false /\ is_fetch e = false /\
                                is_sleep e = false) d_loop) as Hloop.
  { intros l m0 s3 d3 H3.
    destruct (for_topics_events lower format_message env l m0 s3)
      as [dl [k [Hdl [_ [_ [_ Hq]]]]]].
    exists dl. split; [|exact Hq].
    destruct (for_topics lower format_message env l m0 s3) as [[m1|e] s4];
      simpl in *; rewrite Hdl, H3, <- !app_assoc; reflexivity. }
  rewrite cycle_run, cycle_body_run, fetch_with_recovery_run.
  fold s0. rewrite get_new_topics_run. fold s1.
  change (clock s0) with (clock s). simpl fst.
  destruct (getter_result (topic_new env (clock s))) as [[|t ts]|e] eqn:Hg.
  - destruct (login_trace env s1) as [dlog [Htl [Hcl [Hcf [Hcs _]]]]].
    destruct (login_total env s1) as [ok [s2 Hl]].
    rewrite Hl in Htl |- *. cbn [snd] in Htl.
    assert (trace s2 = (trace s ++ [EvSleep INTERVAL; EvGetNewTopics]
                          ++ dlog)%list) as Ht2
        by (rewrite Htl, Ht1, <- app_assoc; reflexivity).
    destruct ok.
    + rewrite get_new_topics_run.
      set (s3 := advance EvGetNewTopics s2).
      assert (trace s3 = (trace s ++ [EvSleep INTERVAL; EvGetNewTopics]
                            ++ (dlog ++ [EvGetNewTopics]))%list) as Ht3
          by (subst s3; simpl; rewrite Ht2, <- !app_assoc; reflexivity).
      assert (count is_sleep (dlog ++ [EvGetNewTopics]) = 0%nat /\
              count is_login (dlog ++ [EvGetNewTopics]) = 1%nat /\
              (count is_fetch (dlog ++ [EvGetNewTopics]) <= 1)%nat)
        as [Hs3 [Hl3 Hf3]].
      { rewrite !count_app, Hcs, Hcl, Hcf. unfold count. simpl.
        repeat split; lia. }
      destruct (getter_result (topic_new env (clock s2))) as [[|t ts]|e].
      * exists (dlog ++ [EvGetNewTopics])%list, [].
        simpl snd. rewrite app_nil_r.
        split; [exact Ht3|]. split; [constructor|]. split; [exact Hs3|].
        right. auto.
      * destruct (Hloop (sort_by_id (newer_than m (t :: ts))) m s3 _ Ht3)
          as [dl [Hdl Hq]].
        exists (dlog ++ [EvGetNewTopics])%list, dl.
        split; [rewrite Hdl, <- !app_assoc; reflexivity|].
        split; [exact Hq|]. split; [exact Hs3|]. right. auto.
      * exists (dlog ++ [EvGetNewTopics])%list, [].
        simpl snd. rewrite app_nil_r.
        split; [exact Ht3|]. split; [constructor|]. split; [exact Hs3|].
        right. auto.
    + exists dlog, []. simpl snd. rewrite app_nil_r.
      split; [exact Ht2|]. split; [constructor|]. split; [exact Hcs|].
      right. split; [reflexivity|]. split; [exact Hcl | lia].
  - assert (trace s1 = (trace s ++ [EvSleep INTERVAL; EvGetNewTopics]
                          ++ [])%list) as Ht1'
        by (rewrite app_nil_r; exact Ht1).
    destruct (Hloop (sort_by_id (newer_than m (t :: ts))) m s1 _ Ht1')
      as [dl [Hdl Hq]].
    exists [], dl. split; [exact Hdl|]. split; [exact Hq|].
    split; [reflexivity|]. left. split; [reflexivity | discriminate].
  - exists [], []. simpl snd.
    split; [rewrite Ht1, !app_nil_r; reflexivity|].
    split; [constructor|]. split; [reflexivity|].
    left. split; [reflexivity | discriminate].
Qed.

End Budget.

(** X13: every cycle sleeps exactly once, for the interval of 120 seconds,
    and then fetches; it calls [login] at most once, exactly when that first
    fetch returned the empty list, and asks for the newest topics at most
    twice, the second time only after such a login. *)
Theorem cycle_request_budget
    (lower : string -> string)
    (format_message : Topic -> string -> string -> string) (env : Env)
    (max_id : Z) (s : State) :
  let d := new_events s (snd (cycle lower format_message env max_id s)) in
  (exists d', d = (EvSleep 120 :: EvGetNewTopics :: d')%list) /\
  count is_sleep d = 1%nat /\
  (count is_login d <= 1)%nat /\
  (1 <= count is_fetch d <= 1 + count is_login d)%nat /\
  (count is_login d = 1%nat <->
   fst (get_new_topics env (record (EvSleep INTERVAL) s)) = Ok []).
Proof.
  intros d. subst d.
  destruct (cycle_trace_shape lower format_message env max_id s)
    as [d_rec [d_loop [Ht [Hq [Hs Hcase]]]]].
  rewrite (new_events_app _ _ _ Ht).
  assert (count is_login d_loop = 0%nat /\ count is_fetch d_loop = 0%nat /\
          count is_sleep d_loop = 0%nat) as [Hl1 [Hl2 Hl3]].
  { repeat split; apply count_none;
      (eapply List.Forall_impl; [|exact Hq]); intros e He; apply He. }
  split; [eexists; reflexivity|].
  rewrite !count_app, Hl1, Hl2, Hl3, Hs.
  change (count is_sleep [EvSleep INTERVAL; EvGetNewTopics]) with 1%nat.
  change (count is_login [EvSleep INTERVAL; EvGetNewTopics]) with 0%nat.
  change (count is_fetch [EvSleep INTERVAL; EvGetNewTopics]) with 1%nat.
  destruct Hcase as [[-> Hne]|[He [Hc1 Hc2]]].
  - change (count is_login []) with 0%nat.
    change (count is_fetch []) with 0%nat.
    split; [reflexivity|]. split; [lia|]. split; [lia|].
    split; [intros H; simpl in H; discriminate | intros H; contradiction].
  - rewrite Hc1. split; [reflexivity|]. split; [lia|]. split; [lia|].
    split; [intros _; exact He | intros _; reflexivity].
Qed.

(** ** Start-up, the login half *)

(** X14: when the initial login returns false, for whatever reason, [main]
    returns right after it: it never fetches a topic and never sleeps, and
    it has made at most the one token request of that login. *)
Theorem failed_login_stops_main
    (lower : string -> string)
    (format_message : Topic -> string -> string -> string) (env : Env)
    (fuel : nat) (s : State) :
  fst (login env s) = Ok false ->
  let r := main lower format_message env fuel s in
  r = (Ok Returned, snd (login env s)) /\
  count is_fetch (new_events s (snd r)) = 0%nat /\
  count is_sleep (new_events s (snd r)) = 0%nat /\
  (clock (snd r) <= S (clock s))%nat.
Proof.
  intros Hl r. subst r.
  assert (main lower format_message env fuel s
          = (Ok Returned, snd (login env s))) as Hm.
  { unfold main, bind. destruct (login env s) as [[ok|e] s1];
      simpl in Hl; [|discriminate].
    injection Hl as ->. reflexivity. }
  rewrite Hm. simpl snd. split; [reflexivity|].
  destruct (login_trace env s) as [d [Ht [_ [Hf [Hs _]]]]].
  rewrite (new_events_app _ _ _ Ht).
  split; [exact Hf|]. split; [exact Hs|].
  destruct (login_cases env s)
    as [[H _]|[[H _]|[td [_ [_ [_ H]]]]]]; rewrite H; simpl; lia.
Qed.

Lemma failed_login_stops_main_witness :
  let env := sample_env (fun _ => Response 403 None)
                        (fun _ => Response 200 (Some next_batch)) in
  let s := start (sample_client (Some "id")) in
  fst (login env s) = Ok false /\
  fst (main ascii_lower sample_format env 3 s) = Ok Returned.
Proof.
  intros env s.
  assert (fst (login env s) = Ok false) as Hl by reflexivity.
  split; [exact Hl|].
  destruct (failed_login_stops_main ascii_lower sample_format env 3 s Hl)
    as [Hm _].
  rewrite Hm. reflexivity.
Defined.

(** ** Credential discovery *)

Section DiscoveryFacts.

Variable web_get : string -> nat -> PageResult.
Variable search_main_js : string -> option string.
Variable search_client_id : string -> option string.
Variable search_client_secret : string -> option string.

Local Abbreviation discover :=
  (_update_credentials_from_web web_get search_main_js search_client_id
                                search_client_secret).

Local Abbreviation found :=
  (discovered web_get search_main_js search_client_id search_client_secret).

Lemma discover_cases (c : Client) :
  (fst (discover c) = c /\ forall i secret, ~ found i secret) \/
  (exists i secret,
      found i secret /\ fst (discover c) = set_credentials i secret c).
Proof.
  unfold _update_credentials_from_web, discovered.
  destruct (web_get WWW_BASE_URL 0) as [|st text] eqn:Hw.
  { left. split; [reflexivity|].
    intros i sec [t [js [ct [H _]]]]. discriminate. }
  destruct (Z.eqb_spec st 200) as [->|Hst]; simpl.
  2:{ left. split; [reflexivity|].
      intros i sec [t [js [ct [H _]]]]. congruence. }
  destruct (search_main_js text) as [js|] eqn:Hjs.
  2:{ left. split; [reflexivity|].
      intros i sec [t [js [ct [H [H2 _]]]]]. congruence. }
  destruct (web_get (WWW_BASE_URL ++ "/static/scripts/" ++ js)%string 1)
    as [|st2 content] eqn:Hw2.
  { left. split; [reflexivity|].
    intros i sec [t [js' [ct [H [H2 [H3 _]]]]]].
    assert (js' = js) as -> by congruence. congruence. }
  destruct (Z.eqb_spec st2 200) as [->|Hst2]; simpl.
  2:{ left. split; [reflexivity|].
      intros i sec [t [js' [ct [H [H2 [H3 _]]]]]].
      assert (js' = js) as -> by congruence. congruence. }
  destruct (search_client_id content) as [i|] eqn:Hi.
  2:{ left. split; [reflexivity|].
      intros i sec [t [js' [ct [H [H2 [H3 [H4 _]]]]]]].
      assert (js' = js) as -> by congruence.
      assert (ct = content) as -> by congruence. congruence. }
  destruct (search_client_secret content) as [sec|] eqn:Hsec.
  2:{ left. split; [reflexivity|].
      intros i' sec [t [js' [ct [H [H2 [H3 [_ H5]]]]]]].
      assert (js' = js) as -> by congruence.
      assert (ct = content) as -> by congruence. congruence. }
  right. exists i, sec. split; [|reflexivity].
  exists text, js, content. auto.
Qed.

End DiscoveryFacts.

(** X15: credential discovery never raises and assigns the two credentials
    together or not at all: both are set, to the values matched in the
    bundle, exactly when the home page was served with status 200, it names
    a bundle, the bundle was served with status 200 and both patterns match
    in it; otherwise the client is left exactly as it was.  Tokens, header
    and board mapping are never touched.  At most two pages are requested,
    the home page first and then the bundle under the matched name. *)
Theorem discovery_sets_both_or_neither
    (web_get : string -> nat -> PageResult)
    (search_main_js search_client_id search_client_secret
       : string -> option string)
    (c : Client) :
  let r := _update_credentials_from_web web_get search_main_js
             search_client_id search_client_secret c in
  ((fst r = c /\
    forall i secret,
      ~ discovered web_get search_main_js search_client_id
          search_client_secret i secret) \/
   (exists i secret,
       discovered web_get search_main_js search_client_id
         search_client_secret i secret /\
       client_id (fst r) = Some i /\ client_secret (fst r) = Some secret)) /\
  access_token (fst r) = access_token c /\
  refresh_token (fst r) = refresh_token c /\
  authorization (fst r) = authorization c /\
  board_map (fst r) = board_map c /\
  (snd r = [WWW_BASE_URL] \/
   exists text js,
     web_get WWW_BASE_URL 0%nat = Page 200 text /\
     search_main_js text = Some js /\
     snd r = [WWW_BASE_URL;
              (WWW_BASE_URL ++ "/static/scripts/" ++ js)%string]).
Proof.
  intros r. subst r.
  split; [|split; [|split; [|split; [|split]]]].
  - destruct (discover_cases web_get search_main_js search_client_id
                search_client_secret c) as [H|[i [sec [Hd He]]]];
      [left; exact H|].
    right. exists i, sec. rewrite He. auto.
  - destruct (discover_cases web_get search_main_js search_client_id
                search_client_secret c) as [[H _]|[i [sec [_ He]]]];
      rewrite ?H, ?He; reflexivity.
  - destruct (discover_cases web_get search_main_js search_client_id
                search_client_secret c) as [[H _]|[i [sec [_ He]]]];
      rewrite ?H, ?He; reflexivity.
  - destruct (discover_cases web_get search_main_js search_client_id
                search_client_secret c) as [[H _]|[i [sec [_ He]]]];
      rewrite ?H, ?He; reflexivity.
  - destruct (discover_cases web_get search_main_js search_client_id
                search_client_secret c) as [[H _]|[i [sec [_ He]]]];
      rewrite ?H, ?He; reflexivity.
  - unfold _update_credentials_from_web.
    destruct (web_get WWW_BASE_URL 0%nat) as [|st text];
      [left; reflexivity|].
    destruct (Z.eqb_spec st 200) as [->|Hne]; simpl; [|left; reflexivity].
    destruct (search_main_js text) as [js|] eqn:Hjs; [|left; reflexivity].
    right. exists text, js. split; [reflexivity|]. split; [exact Hjs|].
    destruct (web_get _ 1%nat) as [|st2 content]; [reflexivity|].
    destruct (Z.eqb st2 200); simpl; [|reflexivity].
    destruct (search_client_id content), (search_client_secret content);
      reflexivity.
Qed.

Lemma login_unresolved (env : Env) (s : State) :
  Py.truthy (client_id (client s)) = false ->
  login env s = (Ok false, record EvLogin s).
Proof.
  intros Hid.
  destruct (login_cases env s)
    as [[H _]|[[_ [Ht _]]|[td [_ [Ht _]]]]]; congruence.
Qed.

(** X16: [__init__] raises [ValueError] exactly when the user name or the
    password is unset or empty.  Otherwise the client it builds has no
    token, no header and an empty board mapping, and its two credentials are
    both set or both [None]; when they are [None], [main] run on that client
    returns after its login call without issuing a single request. *)
Theorem init_then_main_without_credentials
    (web_get : string -> nat -> PageResult)
    (search_main_js search_client_id search_client_secret
       : string -> option string)
    (username password : option string) :
  let built := __init__ web_get search_main_js search_client_id
                 search_client_secret username password in
  (built = Raise ValueError <->
   Py.truthy username = false \/ Py.truthy password = false) /\
  (forall cr,
      built = Ok cr ->
      access_token (fst cr) = None /\ refresh_token (fst cr) = None /\
      authorization (fst cr) = None /\ board_map (fst cr) = ∅ /\
      ((client_id (fst cr) = None /\ client_secret (fst cr) = None) \/
       (exists i secret,
           client_id (fst cr) = Some i /\
           client_secret (fst cr) = Some secret)) /\
      (client_id (fst cr) = None ->
       forall lower format_message env fuel,
         main lower format_message env fuel (constructed cr)
         = (Ok Returned, record EvLogin (constructed cr)))).
Proof.
  intros built. subst built. unfold __init__.
  destruct (Py.truthy username) eqn:Hu; simpl.
  2:{ split; [split; [intros _; left; reflexivity | reflexivity]|].
      intros cr H. discriminate. }
  destruct (Py.truthy password) eqn:Hp; simpl.
  2:{ split; [split; [intros _; right; reflexivity | reflexivity]|].
      intros cr H. discriminate. }
  split; [split; [discriminate | intros [H|H]; discriminate]|].
  intros cr H. injection H as <-.
  destruct (discover_cases web_get search_main_js search_client_id
              search_client_secret blank_client)
    as [[He _]|[i [sec [_ He]]]];
    destruct (_update_credentials_from_web web_get search_main_js
                search_client_id search_client_secret blank_client)
      as [c' reqs]; simpl in He; subst c'; simpl.
  - split; [reflexivity|]. split; [reflexivity|]. split; [reflexivity|].
    split; [reflexivity|]. split; [left; split; reflexivity|].
    intros _ lower format_message env fuel.
    unfold main.
    rewrite (bind_ok _ _ _ _ _
               (login_unresolved env (constructed (blank_client, reqs))
                                 eq_refl)).
    reflexivity.
  - split; [reflexivity|]. split; [reflexivity|]. split; [reflexivity|].
    split; [reflexivity|]. split; [right; eauto | discriminate].
Qed.

Lemma init_then_main_without_credentials_witness :
  let built := __init__ (fun _ _ => PageError) (fun _ => None)
                 (fun _ => None) (fun _ => None)
                 (Some "user") (Some "secret") in
  built = Ok (blank_client, [WWW_BASE_URL]) /\
  main ascii_lower sample_format offline_env 4
       (constructed (blank_client, [WWW_BASE_URL]))
  = (Ok Returned, record EvLogin (constructed (blank_client, [WWW_BASE_URL]))).
Proof.
  intros built.
  destruct (init_then_main_without_credentials
              (fun _ _ => PageError) (fun _ => None) (fun _ => None)
              (fun _ => None) (Some "user") (Some "secret")) as [_ H].
  split; [reflexivity|].
  destruct (H (blank_client, [WWW_BASE_URL]) eq_refl)
    as [_ [_ [_ [_ [_ Hmain]]]]].
  apply Hmain. reflexivity.
Defined.

(** ** The text of the alert *)

Lemma ascii_text_dots : Message.ascii_text "..." = [46; 46; 46]%N.
Proof. reflexivity. Qed.

(** X17: [format_message] shows a content of at most 500 characters as it
    is, and cuts a longer one to its first 500 characters followed by three
    dots, 503 characters in all; the lines before the content do not depend
    on it. *)
Theorem format_message_truncates (t : Message.Fields)
    (board_name content : list N) :
  (length content <= 500 ->
   Message.format_message t board_name content
   = (Message.message_head t board_name ++ content)%list)%nat /\
  (500 < length content ->
   Message.format_message t board_name content
   = (Message.message_head t board_name
        ++ take 500 content ++ [46; 46; 46]%N)%list /\
   length (Message.shown_content content) = 503)%nat /\
  (length (Message.shown_content content) <= 503)%nat /\
  take 500 (Message.shown_content content) = take 500 content.
Proof.
  unfold Message.format_message, Message.shown_content.
  rewrite ascii_text_dots.
  destruct (Nat.ltb_spec 500 (length content)) as [Hlong|Hshort].
  - split; [intros H; lia|].
    assert (length (take 500 content ++ [46; 46; 46]%N) = 503%nat) as Hlen.
    { rewrite length_app, length_take.
      change (length [46; 46; 46]%N) with 3%nat. lia. }
    split; [intros _; split; [reflexivity | exact Hlen]|].
    split; [lia|].
    rewrite take_app_le by (rewrite length_take; lia).
    apply take_take.
  - split; [intros _; reflexivity|].
    split; [intros H; lia|]. split; [lia | reflexivity].
Qed.

Lemma format_message_truncates_witness :
  let t := {| Message.title := None; Message.userName := None;
              Message.id := Some 104; Message.time := None |} in
  let content := repeat 97%N 501 in
  length (Message.shown_content content) = 503%nat.
Proof.
  intros t content.
  destruct (format_message_truncates t [] content) as [_ [H _]].
  apply H. vm_compute. reflexivity.
Defined.

Lemma time_mark_gone (l : list N) :
  ~ In 84%N (map (fun c => if N.eqb c 84 then 32%N else c) l).
Proof.
  intros H. apply in_map_iff in H as [c [Hc _]].
  destruct (N.eqb_spec c 84); [discriminate | congruence].
Qed.

Lemma time_mark_absent (l : list N) :
  ~ In 84%N l -> map (fun c => if N.eqb c 84 then 32%N else c) l = l.
Proof.
  induction l as [|c l IH]; intros H; simpl; [reflexivity|].
  simpl in H. rewrite IH by tauto.
  destruct (N.eqb_spec c 84) as [->|Hne]; [tauto | reflexivity].
Qed.

(** X18: the time shown in the alert is the first 19 characters of the
    topic's time (the empty string when the topic has none) with every "T"
    replaced by a space; it never contains a "T".  For a timestamp made of a
    10-character date, a "T", an 8-character time of day and anything after,
    it is the date, a space and the time of day. *)
Theorem time_str_is_date_and_time (t : Message.Fields) :
  length (Message.time_str t)
  = Nat.min 19 (length (default [] (Message.time t))) /\
  ~ In 84%N (Message.time_str t) /\
  (forall date clock rest,
      Message.time t = Some (date ++ [84%N] ++ clock ++ rest)%list ->
      length date = 10%nat -> length clock = 8%nat ->
      ~ In 84%N date -> ~ In 84%N clock ->
      Message.time_str t = (date ++ [32%N] ++ clock)%list).
Proof.
  unfold Message.time_str.
  split; [rewrite length_map, length_take; reflexivity|].
  split; [apply time_mark_gone|].
  intros date clock rest Ht Hd Hc Hnd Hnc. rewrite Ht.
  change (default [] (Some (date ++ [84%N] ++ clock ++ rest)%list))
    with (date ++ [84%N] ++ clock ++ rest)%list.
  assert (take 19 (date ++ [84%N] ++ clock ++ rest)
          = (date ++ [84%N] ++ clock)%list) as ->.
  { rewrite !app_assoc.
    rewrite take_app_length' by (rewrite !length_app; simpl; lia).
    reflexivity. }
  rewrite !map_app, (time_mark_absent date Hnd), (time_mark_absent clock Hnc).
  reflexivity.
Qed.

Lemma time_str_is_date_and_time_witness :
  Message.time_str
    {| Message.title := None; Message.userName := None; Message.id := None;
       Message.time := Some (Message.ascii_text "2025-01-02T03:04:05.678") |}
  = Message.ascii_text "2025-01-02 03:04:05".
Proof.
  destruct (time_str_is_date_and_time
              {| Message.title := None; Message.userName := None;
                 Message.id := None;
                 Message.time :=
                   Some (Message.ascii_text "2025-01-02T03:04:05.678") |})
    as [_ [_ H]].
  apply (H (Message.ascii_text "2025-01-02") (Message.ascii_text "03:04:05")
           (Message.ascii_text ".678")); try reflexivity;
    vm_compute; intuition discriminate.
Defined.

(** ** The loop goes on *)

Section Forever.

Variable lower : string -> string.
Variable format_message : Topic -> string -> string -> string.
Variable env : Env.

Lemma cycle_sleeps_once (m : Z) (s : State) :
  exists d,
    trace (snd (cycle lower format_message env m s)) = (trace s ++ d)%list /\
    count is_sleep d = 1%nat.
Proof.
  destruct (cycle_trace_shape lower format_message env m s)
    as [d_rec [d_loop [Ht [Hq [Hs _]]]]].
  eexists. split; [exact Ht|].
  rewrite !count_app, Hs.
  rewrite (count_none is_sleep d_loop)
    by (eapply List.Forall_impl; [|exact Hq]; intros e He; apply He).
  reflexivity.
Qed.

Lemma poll_loop_sleeps (n : nat) (m : Z) (s : State) :
  exists d,
    trace (snd (poll_loop lower format_message env n m s))
    = (trace s ++ d)%list /\
    count is_sleep d = n.
Proof.
  revert m s; induction n as [|n IH]; intros m s.
  - exists []. simpl. rewrite app_nil_r. split; reflexivity.
  - change (poll_loop lower format_message env (S n) m s)
      with (bind (cycle lower format_message env m)
                 (poll_loop lower format_message env n) s).
    destruct (cycle_total lower format_message env m s)
      as [m1 [s1 [Hc _]]].
    destruct (cycle_sleeps_once m s) as [d1 [Hd1 Hc1]].
    rewrite Hc in Hd1. simpl in Hd1.
    rewrite (bind_ok _ _ _ _ _ Hc).
    destruct (IH m1 s1) as [d2 [Hd2 Hc2]].
    exists (d1 ++ d2)%list.
    split; [rewrite Hd2, Hd1, app_assoc; reflexivity|].
    rewrite count_app, Hc1, Hc2. reflexivity.
Qed.

End Forever.

(** X19: once the initial login has succeeded and the baseline fetch has not
    raised, [main] never returns and never raises, whatever the network does
    afterwards: after any number of turns it is still polling, it has slept
    exactly that many times, and its mark is at least every id of the
    startup batch. *)
Theorem polling_never_stops
    (lower : string -> string)
    (format_message : Topic -> string -> string -> string) (env : Env)
    (s s1 s2 : State) (topics : list Topic) (fuel : nat) :
  login env s = (Ok true, s1) ->
  get_new_topics env s1 = (Ok topics, s2) ->
  exists m s',
    main lower format_message env fuel s = (Ok (Polling m), s') /\
    (forall t, In t topics -> topic_id t <= m) /\
    count is_sleep (new_events s s') = fuel.
Proof.
  intros Hl Hg.
  assert (exists b, baseline env s1 = (Ok b, s2) /\
                    forall t, In t topics -> topic_id t <= b) as [b [Hb Hall]].
  { rewrite baseline_run. rewrite get_new_topics_run in Hg.
    injection Hg as Hg <-. rewrite Hg. destruct topics as [|t ts].
    - exists 0. split; [reflexivity | intros t []].
    - eexists. split; [reflexivity|].
      destruct (fold_max_bounds (map topic_id ts) (topic_id t))
        as [Hlow [Hup _]].
      intros u [<-|Hu]; [exact Hlow | apply Hup, in_map; exact Hu]. }
  destruct (poll_loop_total lower format_message env fuel b s2)
    as [m [s' [Hp Hle]]].
  exists m, s'.
  assert (main lower format_message env fuel s = (Ok (Polling m), s')) as Hm.
  { unfold main. rewrite (bind_ok _ _ _ _ _ Hl). cbn [negb].
    unfold bind at 1. unfold try_except, bind at 1. rewrite Hb.
    unfold ret at 1. exact Hp. }
  split; [exact Hm|]. split.
  { intros t Ht. specialize (Hall t Ht). lia. }
  destruct (login_trace env s) as [dl [Htl [_ [_ [Hsl _]]]]].
  rewrite Hl in Htl. simpl in Htl.
  destruct (poll_loop_sleeps lower format_message env fuel b s2)
    as [dp [Htp Hsp]].
  rewrite Hp in Htp. simpl in Htp.
  assert (trace s2 = (trace s1 ++ [EvGetNewTopics])%list) as Ht2.
  { rewrite get_new_topics_run in Hg. injection Hg as _ <-. reflexivity. }
  rewrite (new_events_app s s' (dl ++ [EvGetNewTopics] ++ dp)).
  - rewrite !count_app, Hsl, Hsp. reflexivity.
  - rewrite Htp, Ht2, Htl, <- !app_assoc. reflexivity.
Qed.

Lemma polling_never_stops_witness :
  let env := sample_env (fun _ => Response 200 (Some sample_tokens))
                        (fun n => if Nat.eqb n 1
                                  then Response 200 (Some startup_batch)
                                  else ConnectionError) in
  let s := start (sample_client (Some "id")) in
  exists s', main ascii_lower sample_format env 7 s = (Ok (Polling 103), s').
Proof.
  intros env s.
  destruct (polling_never_stops ascii_lower sample_format env s
              (snd (login env s))
              (advance EvGetNewTopics (snd (login env s)))
              startup_batch 7 eq_refl eq_refl) as [m [s' [Hm _]]].
  exists s'. rewrite Hm.
  assert (fst (main ascii_lower sample_format env 7 s) = Ok (Polling 103))
    as Hrun by (vm_compute; reflexivity).
  rewrite Hm in Hrun. simpl in Hrun. congruence.
Defined.
